(** * Concurrency primitives of the outreach CRM: Mutex, Semaphore,
    DataChangeMutex and the scoped helpers.

    Shallow embedding of [src/lib/concurrency.ts] and
    [src/lib/data-change-mutex.ts].

    The host is a single-threaded event loop, so every method body runs to
    completion between two suspension points.  A method is embedded as a pure
    function on the object's fields.  A promise returned by [acquire()] is
    either settled by the call itself or left pending with its [resolve]
    callback stored in the wait queue; the callback is an opaque token of a
    type [W] chosen by the client of the primitive. *)

From Stdlib Require Import String Ascii DecimalString.
From Stdlib Require Import List Bool ZArith Lia.
Import ListNotations.
Open Scope Z_scope.

Set Implicit Arguments.
Set Warnings "-register-all".

(** State, at the moment [acquire()] returns, of the promise it returns:
    [Resolved] when the call settled it itself ([Promise.resolve()]),
    [Pending] when only a later [release()] can settle it. *)
Inductive promise := Resolved | Pending.

(** ** class Mutex *)
Module Mutex.

Record t (W : Type) := mk {
  locked : bool;
  waitQueue : list W
}.

(** [new Mutex()]: the field initialisers. *)
Definition new {W : Type} : t W := mk false [].

(** [acquire()]; [resolve] names the callback of the promise created on the
    contended path. *)
Definition acquire {W : Type} (resolve : W) (this : t W) : t W * promise :=
  if negb (locked this) then
    (mk true (waitQueue this), Resolved)
  else
    (mk (locked this) (waitQueue this ++ [resolve]), Pending).

(** [release()]; the second component is the callback that was called with
    [true], if any. *)
Definition release {W : Type} (this : t W) : t W * option W :=
  if (0 <? length (waitQueue this))%nat then
    match waitQueue this with                       (* waitQueue.shift() *)
    | nextResolve :: rest => (mk (locked this) rest, Some nextResolve)
    | [] => (this, None)
    end
  else
    (mk false (waitQueue this), None).

Definition isLocked {W : Type} (this : t W) : bool := locked this.

End Mutex.

(** ** class Semaphore *)
Module Semaphore.

Record t (W : Type) := mk {
  permits : Z;
  waitQueue : list W
}.

(** [new Semaphore(permits)]. *)
Definition new {W : Type} (permits : Z) : t W := mk permits [].

Definition acquire {W : Type} (resolve : W) (this : t W) : t W * promise :=
  if 0 <? permits this then
    (mk (permits this - 1) (waitQueue this), Resolved)
  else
    (mk (permits this) (waitQueue this ++ [resolve]), Pending).

Definition release {W : Type} (this : t W) : t W * option W :=
  if (0 <? length (waitQueue this))%nat then
    match waitQueue this with                       (* waitQueue.shift() *)
    | nextResolve :: rest => (mk (permits this) rest, Some nextResolve)
    | [] => (this, None)
    end
  else
    (mk (permits this + 1) (waitQueue this), None).

Definition availablePermits {W : Type} (this : t W) : Z := permits this.

End Semaphore.

(** ** Sequences of calls on one primitive *)

(** The calls a client can make that change a lock. *)
Inductive call (W : Type) :=
| Acquire (resolve : W)
| Release.
Arguments Release {W}.

(** What a call hands back to the event loop: for [Acquire] the state of the
    returned promise, for [Release] the callback it resumed. *)
Inductive effect (W : Type) :=
| Returned (p : promise)
| Resumed (w : option W).

Module MutexRun.

Definition step {W : Type} (c : call W) (m : Mutex.t W) : Mutex.t W * effect W :=
  match c with
  | Acquire w => let (m', p) := Mutex.acquire w m in (m', Returned W p)
  | Release => let (m', r) := Mutex.release m in (m', Resumed r)
  end.

Fixpoint run {W : Type} (cs : list (call W)) (m : Mutex.t W) : Mutex.t W * list (effect W) :=
  match cs with
  | [] => (m, [])
  | c :: cs' =>
      let (m1, e) := step c m in
      let (m2, es) := run cs' m1 in
      (m2, e :: es)
  end.

End MutexRun.

Module SemaphoreRun.

Definition step {W : Type} (c : call W) (s : Semaphore.t W) : Semaphore.t W * effect W :=
  match c with
  | Acquire w => let (s', p) := Semaphore.acquire w s in (s', Returned W p)
  | Release => let (s', r) := Semaphore.release s in (s', Resumed r)
  end.

Fixpoint run {W : Type} (cs : list (call W)) (s : Semaphore.t W) : Semaphore.t W * list (effect W) :=
  match cs with
  | [] => (s, [])
  | c :: cs' =>
      let (s1, e) := step c s in
      let (s2, es) := run cs' s1 in
      (s2, e :: es)
  end.

(** Number of callers currently admitted, as an observer of the run counts
    them: an [acquire()] that resolves adds one, a [release()] takes one away
    and adds one back when it resumes a waiter. *)
Definition holders_after {W : Type} (e : effect W) (holders : Z) : Z :=
  match e with
  | Returned _ Resolved => holders + 1
  | Returned _ Pending => holders
  | Resumed (Some _) => holders - 1 + 1
  | Resumed None => holders - 1
  end.

(** A run is disciplined when every [release()] is issued by a caller that
    was admitted and has not released yet. *)
Fixpoint disciplined {W : Type} (cs : list (call W)) (s : Semaphore.t W) (holders : Z) : bool :=
  match cs with
  | [] => true
  | c :: cs' =>
      let (s1, e) := step c s in
      match c with
      | Acquire _ => disciplined cs' s1 (holders_after e holders)
      | Release => (0 <? holders) && disciplined cs' s1 (holders_after e holders)
      end
  end.

End SemaphoreRun.

(** ** The named registries and the scoped helpers *)
Module Scoped.

(** [keyof typeof mutexes] and [keyof typeof semaphores]. *)
Inductive mutexKey := workspace | messages | analytics | templates | contacts | properties.
Inductive semaphoreKey := api | db | sms.

Definition mutexKey_eqb (a b : mutexKey) : bool :=
  match a, b with
  | workspace, workspace | messages, messages | analytics, analytics
  | templates, templates | contacts, contacts | properties, properties => true
  | _, _ => false
  end.

Definition semaphoreKey_eqb (a b : semaphoreKey) : bool :=
  match a, b with
  | api, api | db, db | sms, sms => true
  | _, _ => false
  end.

(** The module-level objects [mutexes] and [semaphores], and the callbacks
    that [release()] calls have resumed so far (oldest first). *)
Record heap (W : Type) := mkHeap {
  mutexes : mutexKey -> Mutex.t W;
  semaphores : semaphoreKey -> Semaphore.t W;
  resumed : list W
}.

(** The registries as the module initialises them. *)
Definition init {W : Type} : heap W :=
  mkHeap (fun _ => Mutex.new)
         (fun k => match k with
                   | api => Semaphore.new 10
                   | db => Semaphore.new 5
                   | sms => Semaphore.new 3
                   end)
         [].

Definition set_mutex {W : Type} (k : mutexKey) (m : Mutex.t W) (h : heap W) : heap W :=
  mkHeap (fun k' => if mutexKey_eqb k k' then m else mutexes h k') (semaphores h) (resumed h).

Definition set_semaphore {W : Type} (k : semaphoreKey) (s : Semaphore.t W) (h : heap W) : heap W :=
  mkHeap (mutexes h) (fun k' => if semaphoreKey_eqb k k' then s else semaphores h k') (resumed h).

Definition wake {W : Type} (r : option W) (h : heap W) : heap W :=
  match r with
  | Some w => mkHeap (mutexes h) (semaphores h) (resumed h ++ [w])
  | None => h
  end.

(** How a block of code ends: with a value, or with a thrown error (for an
    async function: its promise fulfilled or rejected). *)
Inductive completion (E A : Type) :=
| Normal (a : A)
| Throw (e : E).
Arguments Normal {E A} a.
Arguments Throw {E A} e.

(** Code that runs on the heap and completes. *)
Definition M (W E A : Type) := heap W -> heap W * completion E A.

(** [try { body } finally { fin }]: the finaliser runs on every exit of the
    body; the body's completion stands unless the finaliser throws. *)
Definition try_finally {W E A : Type} (body : M W E A) (fin : M W E unit) : M W E A :=
  fun h =>
    let (h1, c) := body h in
    match fin h1 with
    | (h2, Normal _) => (h2, c)
    | (h2, Throw e) => (h2, Throw e)
    end.

(** [mutexes[mutexKey].release()] and [semaphores[semaphoreKey].release()]. *)
Definition release_mutex {W E : Type} (mutexKey : mutexKey) : M W E unit :=
  fun h =>
    let (mutex, r) := Mutex.release (mutexes h mutexKey) in
    (wake r (set_mutex mutexKey mutex h), Normal tt).

Definition release_semaphore {W E : Type} (semaphoreKey : semaphoreKey) : M W E unit :=
  fun h =>
    let (semaphore, r) := Semaphore.release (semaphores h semaphoreKey) in
    (wake r (set_semaphore semaphoreKey semaphore h), Normal tt).

(** What the caller of a scoped helper sees once the helper has run as far
    as it can: its promise settled, or the call parked in a wait queue. *)
Inductive outcome (E A : Type) :=
| Settled (c : completion E A)
| Suspended.
Arguments Settled {E A} c.
Arguments Suspended {E A}.

(** The part of [withMutex] after [await mutex.acquire()]. *)
Definition withMutex_resumed {W E T : Type} (mutexKey : mutexKey) (fn : M W E T) : M W E T :=
  try_finally fn (release_mutex mutexKey).

(** [withMutex(mutexKey, fn)].  [fn] stands for everything between the
    settling of the [acquire()] promise and the settling of the promise of
    the async function: its whole run, with whatever other code does to the
    heap in the meantime. *)
Definition withMutex {W E T : Type} (resolve : W) (mutexKey : mutexKey) (fn : M W E T)
  : heap W -> heap W * outcome E T :=
  fun h =>
    let mutex := mutexes h mutexKey in
    let (mutex', p) := Mutex.acquire resolve mutex in
    let h1 := set_mutex mutexKey mutex' h in
    match p with
    | Resolved => let (h2, c) := withMutex_resumed mutexKey fn h1 in (h2, Settled c)
    | Pending => (h1, Suspended)
    end.

(** The part of [withSemaphore] after [await semaphore.acquire()]. *)
Definition withSemaphore_resumed {W E T : Type} (semaphoreKey : semaphoreKey) (fn : M W E T)
  : M W E T :=
  try_finally fn (release_semaphore semaphoreKey).

(** [withSemaphore(semaphoreKey, fn)]. *)
Definition withSemaphore {W E T : Type} (resolve : W) (semaphoreKey : semaphoreKey)
           (fn : M W E T) : heap W -> heap W * outcome E T :=
  fun h =>
    let semaphore := semaphores h semaphoreKey in
    let (semaphore', p) := Semaphore.acquire resolve semaphore in
    let h1 := set_semaphore semaphoreKey semaphore' h in
    match p with
    | Resolved => let (h2, c) := withSemaphore_resumed semaphoreKey fn h1 in (h2, Settled c)
    | Pending => (h1, Suspended)
    end.

End Scoped.

(** ** The values handed to the change gate *)
Module JS.

(** Numbers: [NaN] and the integers a double holds exactly. *)
Inductive number := NaN | Num (z : Z).

(** Values of the host language.  Functions, arrays and objects carry the
    identity [ref] of their heap cell; an object lists its own enumerable
    properties in their enumeration order. *)
Inductive value :=
| VUndefined
| VNull
| VBoolean (b : bool)
| VNumber (n : number)
| VString (s : string)
| VFunction (ref : nat)
| VArray (ref : nat) (elements : list value)
| VObject (ref : nat) (properties : list (string * value)).

(** The [typeof] operator. *)
Definition typeof (v : value) : string :=
  match v with
  | VUndefined => "undefined"
  | VNull => "object"
  | VBoolean _ => "boolean"
  | VNumber _ => "number"
  | VString _ => "string"
  | VFunction _ => "function"
  | VArray _ _ => "object"
  | VObject _ _ => "object"
  end%string.

(** [===] on numbers: [NaN] equals nothing. *)
Definition number_strict_eq (a b : number) : bool :=
  match a, b with
  | Num x, Num y => x =? y
  | _, _ => false
  end.

(** The [===] operator: by value on primitives, by identity on the rest. *)
Definition strict_eq (a b : value) : bool :=
  match a, b with
  | VUndefined, VUndefined => true
  | VNull, VNull => true
  | VBoolean x, VBoolean y => Bool.eqb x y
  | VNumber x, VNumber y => number_strict_eq x y
  | VString x, VString y => String.eqb x y
  | VFunction r, VFunction r' => Nat.eqb r r'
  | VArray r _, VArray r' _ => Nat.eqb r r'
  | VObject r _, VObject r' _ => Nat.eqb r r'
  | _, _ => false
  end.

Definition dquote : string := String (ascii_of_nat 34) EmptyString.

Definition hex_digit (n : nat) : ascii :=
  nth n (list_ascii_of_string "0123456789abcdef") "0"%char.

(** One character of a string inside JSON text. *)
Definition escape (c : ascii) : string :=
  let n := nat_of_ascii c in
  if Nat.eqb n 34 then ("\" ++ dquote)%string
  else if Nat.eqb n 92 then "\\"%string
  else if Nat.eqb n 8 then "\b"%string
  else if Nat.eqb n 9 then "\t"%string
  else if Nat.eqb n 10 then "\n"%string
  else if Nat.eqb n 12 then "\f"%string
  else if Nat.eqb n 13 then "\r"%string
  else if Nat.ltb n 32 then
    ("\u00" ++ String (hex_digit (Nat.div n 16)) (String (hex_digit (Nat.modulo n 16)) EmptyString))%string
  else String c EmptyString.

Definition QuoteJSONString (s : string) : string :=
  (dquote ++ String.concat "" (map escape (list_ascii_of_string s)) ++ dquote)%string.

Definition number_to_json (n : number) : string :=
  match n with
  | NaN => "null"%string
  | Num z => NilZero.string_of_int (Z.to_int z)
  end.

(** [JSON.stringify(v)]: [None] stands for the result [undefined].  Inside
    an array a value without JSON text is written [null]; inside an object
    its property is left out. *)
Fixpoint JSON_stringify (v : value) : option string :=
  match v with
  | VUndefined => None
  | VFunction _ => None
  | VNull => Some "null"%string
  | VBoolean true => Some "true"%string
  | VBoolean false => Some "false"%string
  | VNumber n => Some (number_to_json n)
  | VString s => Some (QuoteJSONString s)
  | VArray _ elements =>
      Some ("[" ++ String.concat ","
                     (map (fun x => match JSON_stringify x with
                                    | Some text => text
                                    | None => "null"%string
                                    end) elements)
            ++ "]")%string
  | VObject _ properties =>
      Some ("{" ++ String.concat ","
                     (flat_map (fun kv => match JSON_stringify (snd kv) with
                                          | Some text => [(QuoteJSONString (fst kv) ++ ":" ++ text)%string]
                                          | None => []
                                          end) properties)
            ++ "}")%string
  end.

(** [===] on two results of [JSON.stringify]. *)
Definition text_strict_eq (a b : option string) : bool :=
  match a, b with
  | Some x, Some y => String.eqb x y
  | None, None => true
  | _, _ => false
  end.

End JS.

(** ** data-change-mutex.ts *)

(** [defaultCompare(a, b)]. *)
Definition defaultCompare (a b : JS.value) : bool :=
  if JS.strict_eq a JS.VNull then false
  else if negb (String.eqb (JS.typeof a) (JS.typeof b)) then false
  else if String.eqb (JS.typeof a) "object" && negb (JS.strict_eq a JS.VNull) then
    JS.text_strict_eq (JS.JSON_stringify a) (JS.JSON_stringify b)
  else JS.strict_eq a b.

(** [class DataChangeMutex<T> extends Mutex], at [T = any]. *)
Module DataChangeMutex.

Record t (W : Type) := mk {
  super : Mutex.t W;          (* the inherited fields [locked] and [waitQueue] *)
  lastData : JS.value         (* [T | null] *)
}.

Definition new {W : Type} : t W := mk Mutex.new JS.VNull.

(** Where a call of [acquireIfChanged] stands when it first gives control
    back: returned (only ever [false]), or at one of its two
    [await this.acquire()] with the promise in the given state. *)
Inductive progress :=
| Return (b : bool)
| Await (p : promise).

(** [acquireIfChanged(newData, compareFunction)] up to its first return or
    [await]; [None] for [compareFunction] is the omitted argument. *)
Definition acquireIfChanged_enter {W : Type} (resolve : W) (newData : JS.value)
           (compareFunction : option (JS.value -> JS.value -> bool)) (this : t W)
  : t W * progress :=
  let compareFunction :=
    match compareFunction with Some f => f | None => defaultCompare end in
  if JS.strict_eq (lastData this) JS.VNull then
    let (m, p) := Mutex.acquire resolve (super this) in
    (mk m (lastData this), Await p)
  else
    let hasChanged := negb (compareFunction (lastData this) newData) in
    if hasChanged then
      let (m, p) := Mutex.acquire resolve (super this) in
      (mk m (lastData this), Await p)
    else
      (this, Return false).

(** The statements after either [await]: [this.lastData = newData; return true]. *)
Definition acquireIfChanged_resume {W : Type} (newData : JS.value) (this : t W)
  : t W * bool :=
  (mk (super this) newData, true).

(** The whole call when nothing else runs between the [await] of a promise
    that is already resolved and its continuation; [None]: the call is
    parked. *)
Definition acquireIfChanged {W : Type} (resolve : W) (newData : JS.value)
           (compareFunction : option (JS.value -> JS.value -> bool)) (this : t W)
  : t W * option bool :=
  match acquireIfChanged_enter resolve newData compareFunction this with
  | (this1, Return b) => (this1, Some b)
  | (this1, Await Resolved) =>
      let (this2, b) := acquireIfChanged_resume newData this1 in (this2, Some b)
  | (this1, Await Pending) => (this1, None)
  end.

(** [releaseWithData(clearData)]; [None] is the omitted argument. *)
Definition releaseWithData {W : Type} (clearData : option bool) (this : t W)
  : t W * option W :=
  let clearData := match clearData with Some b => b | None => false end in
  let this1 := if clearData then mk (super this) JS.VNull else this in
  let (m, r) := Mutex.release (super this1) in
  (mk m (lastData this1), r).

Definition getLastData {W : Type} (this : t W) : JS.value := lastData this.

End DataChangeMutex.

(** ** Histories of one DataChangeMutex *)
Module DataChangeRun.

(** What a parked or resolved call still has to do. *)
Inductive continuation :=
| AfterAcquire                              (* a plain [acquire()] of the base class *)
| AfterAcquireIfChanged (newData : JS.value).

(** The steps of a history: the calls of the class and of its base class,
    and the event loop running the continuation of a call whose
    [acquire()] promise is resolved ([Resume i]: the [i]-th of them). *)
Inductive step_kind :=
| CallAcquire
| CallRelease
| CallAcquireIfChanged (newData : JS.value)
                       (compareFunction : option (JS.value -> JS.value -> bool))
| CallReleaseWithData (clearData : option bool)
| Resume (i : nat).

(** What an observer of the object notes down, latest first. *)
Inductive event :=
| Proceeded (newData : JS.value)            (* an [acquireIfChanged] returned [true] *)
| Skipped                                   (* an [acquireIfChanged] returned [false] *)
| Cleared.                                  (* a [releaseWithData(true)] *)

Record state := mkState {
  object : DataChangeMutex.t continuation;
  ready : list continuation;                (* resolved, continuation not yet run *)
  trace : list event
}.

Definition init : state := mkState DataChangeMutex.new [] [].

Definition enqueue_ready (r : option continuation) (l : list continuation) : list continuation :=
  match r with Some k => l ++ [k] | None => l end.

Fixpoint remove_nth {A : Type} (i : nat) (l : list A) : list A :=
  match l, i with
  | [], _ => []
  | _ :: tl, O => tl
  | x :: tl, S j => x :: remove_nth j tl
  end.

Definition step (k : step_kind) (s : state) : state :=
  match k with
  | CallAcquire =>
      let (m, p) := Mutex.acquire AfterAcquire (DataChangeMutex.super (object s)) in
      mkState (DataChangeMutex.mk m (DataChangeMutex.lastData (object s)))
              (match p with Resolved => ready s ++ [AfterAcquire] | Pending => ready s end)
              (trace s)
  | CallRelease =>
      let (m, r) := Mutex.release (DataChangeMutex.super (object s)) in
      mkState (DataChangeMutex.mk m (DataChangeMutex.lastData (object s)))
              (enqueue_ready r (ready s))
              (trace s)
  | CallAcquireIfChanged newData compareFunction =>
      match DataChangeMutex.acquireIfChanged_enter
              (AfterAcquireIfChanged newData) newData compareFunction (object s) with
      | (o, DataChangeMutex.Return true) => mkState o (ready s) (Proceeded newData :: trace s)
      | (o, DataChangeMutex.Return false) => mkState o (ready s) (Skipped :: trace s)
      | (o, DataChangeMutex.Await Resolved) =>
          mkState o (ready s ++ [AfterAcquireIfChanged newData]) (trace s)
      | (o, DataChangeMutex.Await Pending) => mkState o (ready s) (trace s)
      end
  | CallReleaseWithData clearData =>
      let (o, r) := DataChangeMutex.releaseWithData clearData (object s) in
      mkState o (enqueue_ready r (ready s))
              (match clearData with Some true => Cleared :: trace s | _ => trace s end)
  | Resume i =>
      match nth_error (ready s) i with
      | Some AfterAcquire => mkState (object s) (remove_nth i (ready s)) (trace s)
      | Some (AfterAcquireIfChanged newData) =>
          let (o, b) := DataChangeMutex.acquireIfChanged_resume newData (object s) in
          mkState o (remove_nth i (ready s))
                  (if b then Proceeded newData :: trace s else Skipped :: trace s)
      | None => s
      end
  end.

Definition run (ks : list step_kind) (s : state) : state :=
  fold_left (fun s k => step k s) ks s.

(** The latest event that wrote [lastData]. *)
Fixpoint last_write (tr : list event) : option event :=
  match tr with
  | [] => None
  | Skipped :: rest => last_write rest
  | e :: _ => Some e
  end.

End DataChangeRun.

(** ** Observers of a run *)
Module Observe.

(** The callers whose [acquire()] returned a pending promise, in call order. *)
Fixpoint parked {W : Type} (cs : list (call W)) (es : list (effect W)) : list W :=
  match cs, es with
  | Acquire w :: cs', Returned _ Pending :: es' => w :: parked cs' es'
  | _ :: cs', _ :: es' => parked cs' es'
  | _, _ => []
  end.

(** The callbacks that [release()] calls resumed, in the order of the calls. *)
Fixpoint served {W : Type} (es : list (effect W)) : list W :=
  match es with
  | Resumed (Some w) :: es' => w :: served es'
  | _ :: es' => served es'
  | [] => []
  end.

(** The number of admitted callers after the effects [es], starting from
    [holders]. *)
Definition holders {W : Type} (es : list (effect W)) (holders : Z) : Z :=
  fold_left (fun h e => SemaphoreRun.holders_after e h) es holders.

(** One uncontended use per caller: [acquire()] then [release()]. *)
Definition pairs {W : Type} (ws : list W) : list (call W) :=
  flat_map (fun w => [Acquire w; Release]) ws.

End Observe.

Module MutexDiscipline.

(** A run on a mutex is disciplined when every [release()] is issued by a
    caller that was admitted and has not released yet. *)
Fixpoint disciplined {W : Type} (cs : list (call W)) (m : Mutex.t W) (holders : Z) : bool :=
  match cs with
  | [] => true
  | c :: cs' =>
      let (m1, e) := MutexRun.step c m in
      match c with
      | Acquire _ => disciplined cs' m1 (SemaphoreRun.holders_after e holders)
      | Release => (0 <? holders) && disciplined cs' m1 (SemaphoreRun.holders_after e holders)
      end
  end.

End MutexDiscipline.

(** ** The hooks [useMutex] and [useSemaphore] *)
Module Hook.

(** The two cells of one use of the hook: the variable [mounted] of the
    effect's closure and the ref [acquired]. *)
Record t := mk {
  mounted : bool;
  acquired : bool
}.

(** [useRef(false)]; no effect has run yet. *)
Definition new : t := mk false false.

(** The effect of [useMutex] up to the [await] inside [acquireMutex]:
    [let mounted = true] and the call of [mutex.acquire()]. *)
Definition useMutex_effect {W : Type} (resolve : W) (hook : t) (mutex : Mutex.t W)
  : t * Mutex.t W * promise :=
  let hook1 := mk true (acquired hook) in
  let (mutex', p) := Mutex.acquire resolve mutex in
  (hook1, mutex', p).

(** The statements of [acquireMutex] after the [await]. *)
Definition useMutex_acquired {W : Type} (hook : t) (mutex : Mutex.t W)
  : t * Mutex.t W * option W :=
  if mounted hook then
    (mk (mounted hook) true, mutex, None)
  else
    let (mutex', r) := Mutex.release mutex in (hook, mutex', r).

(** The cleanup function the effect returns. *)
Definition useMutex_cleanup {W : Type} (hook : t) (mutex : Mutex.t W)
  : t * Mutex.t W * option W :=
  let hook1 := mk false (acquired hook) in
  if acquired hook1 then
    let (mutex', r) := Mutex.release mutex in
    (mk (mounted hook1) false, mutex', r)
  else
    (hook1, mutex, None).

(** The same three pieces of [useSemaphore]. *)
Definition useSemaphore_effect {W : Type} (resolve : W) (hook : t) (semaphore : Semaphore.t W)
  : t * Semaphore.t W * promise :=
  let hook1 := mk true (acquired hook) in
  let (semaphore', p) := Semaphore.acquire resolve semaphore in
  (hook1, semaphore', p).

Definition useSemaphore_acquired {W : Type} (hook : t) (semaphore : Semaphore.t W)
  : t * Semaphore.t W * option W :=
  if mounted hook then
    (mk (mounted hook) true, semaphore, None)
  else
    let (semaphore', r) := Semaphore.release semaphore in (hook, semaphore', r).

Definition useSemaphore_cleanup {W : Type} (hook : t) (semaphore : Semaphore.t W)
  : t * Semaphore.t W * option W :=
  let hook1 := mk false (acquired hook) in
  if acquired hook1 then
    let (semaphore', r) := Semaphore.release semaphore in
    (mk (mounted hook1) false, semaphore', r)
  else
    (hook1, semaphore, None).

End Hook.

(** ** [withDataChangeMutex] *)
Module DataScoped.

(** What [withDataChangeMutex] gives back: the sentinel [null] when the gate
    declined, or the value of [fn]. *)
Inductive result (R : Type) :=
| Skip
| Value (r : R).
Arguments Skip {R}.
Arguments Value {R} r.

(** Code that runs on the object [dataChangeMutexes[mutexKey]] and completes. *)
Definition M (W E A : Type) :=
  DataChangeMutex.t W -> DataChangeMutex.t W * Scoped.completion E A.

(** [try { return await fn(); } finally { mutex.releaseWithData(); }]; the
    middle component is the callback the release resumed. *)
Definition guarded {W E R : Type} (fn : M W E R) (mutex : DataChangeMutex.t W)
  : DataChangeMutex.t W * option W * Scoped.outcome E (result R) :=
  let (mutex1, c) := fn mutex in
  let (mutex2, r) := DataChangeMutex.releaseWithData None mutex1 in
  (mutex2, r,
   Scoped.Settled match c with
                  | Scoped.Normal v => Scoped.Normal (Value v)
                  | Scoped.Throw e => Scoped.Throw e
                  end).

(** The part of [withDataChangeMutex] after [shouldProceed] is known. *)
Definition after_gate {W E R : Type} (shouldProceed : bool) (fn : M W E R)
           (mutex : DataChangeMutex.t W)
  : DataChangeMutex.t W * option W * Scoped.outcome E (result R) :=
  if negb shouldProceed then (mutex, None, Scoped.Settled (Scoped.Normal Skip))
  else guarded fn mutex.

(** The part of [withDataChangeMutex] that runs when a parked
    [acquireIfChanged] is resumed. *)
Definition withDataChangeMutex_resumed {W E R : Type} (data : JS.value) (fn : M W E R)
           (mutex : DataChangeMutex.t W)
  : DataChangeMutex.t W * option W * Scoped.outcome E (result R) :=
  let (mutex1, shouldProceed) := DataChangeMutex.acquireIfChanged_resume data mutex in
  after_gate shouldProceed fn mutex1.

(** [withDataChangeMutex(mutexKey, data, fn, compareFunction)] on the object
    of the registry.  [fn] stands for everything between the settling of the
    gate and the settling of the promise of the async function. *)
Definition withDataChangeMutex {W E R : Type} (resolve : W) (data : JS.value) (fn : M W E R)
           (compareFunction : option (JS.value -> JS.value -> bool))
           (mutex : DataChangeMutex.t W)
  : DataChangeMutex.t W * option W * Scoped.outcome E (result R) :=
  match DataChangeMutex.acquireIfChanged_enter resolve data compareFunction mutex with
  | (mutex1, DataChangeMutex.Return shouldProceed) => after_gate shouldProceed fn mutex1
  | (mutex1, DataChangeMutex.Await Resolved) => withDataChangeMutex_resumed data fn mutex1
  | (mutex1, DataChangeMutex.Await Pending) => (mutex1, None, Scoped.Suspended)
  end.

End DataScoped.

(** ** Accounting for the calls of [acquireIfChanged] in a history *)
Module DataChangeCount.

(** The continuations in [l] that belong to a call of [acquireIfChanged]. *)
Fixpoint gate_calls (l : list DataChangeRun.continuation) : nat :=
  match l with
  | [] => O
  | DataChangeRun.AfterAcquireIfChanged _ :: rest => S (gate_calls rest)
  | DataChangeRun.AfterAcquire :: rest => gate_calls rest
  end.

(** The calls of [acquireIfChanged] made in a history. *)
Fixpoint called (ks : list DataChangeRun.step_kind) : nat :=
  match ks with
  | [] => O
  | DataChangeRun.CallAcquireIfChanged _ _ :: rest => S (called rest)
  | _ :: rest => called rest
  end.

(** The calls of [acquireIfChanged] that have returned, with either value. *)
Fixpoint returned (tr : list DataChangeRun.event) : nat :=
  match tr with
  | [] => O
  | DataChangeRun.Cleared :: rest => returned rest
  | _ :: rest => S (returned rest)
  end.

(** The calls of [acquireIfChanged] still in flight: parked in the wait
    queue, or resolved with their continuation not yet run. *)
Definition in_flight (s : DataChangeRun.state) : nat :=
  (gate_calls (Mutex.waitQueue (DataChangeMutex.super (DataChangeRun.object s)))
   + gate_calls (DataChangeRun.ready s))%nat.

End DataChangeCount.

(** ** Content of a value, apart from the identity of its cells *)
Module Content.

(** The same value with every identity replaced by 0. *)
Fixpoint erase (v : JS.value) : JS.value :=
  match v with
  | JS.VFunction _ => JS.VFunction 0
  | JS.VArray _ elements => JS.VArray 0 (map erase elements)
  | JS.VObject _ properties =>
      JS.VObject 0 (map (fun kv => (fst kv, erase (snd kv))) properties)
  | _ => v
  end.

(** Two values with the same content: equal once identities are set aside. *)
Definition same (a b : JS.value) : Prop := erase a = erase b.

End Content.

(** ** Invariants *)

(** The queue of a mutex is only ever populated while the flag is set. *)
Definition mutex_wf {W : Type} (m : Mutex.t W) : Prop :=
  Mutex.waitQueue m <> [] -> Mutex.locked m = true.

(** Invariant of the permit count. *)
Definition semaphore_wf {W : Type} (s : Semaphore.t W) : Prop :=
  0 <= Semaphore.permits s /\ (Semaphore.waitQueue s <> [] -> Semaphore.permits s = 0).

(** Every step keeps [lastData] equal to what the latest write event says. *)
Definition baseline_matches_trace (s : DataChangeRun.state) : Prop :=
  match DataChangeRun.last_write (DataChangeRun.trace s) with
  | None => DataChangeMutex.getLastData (DataChangeRun.object s) = JS.VNull
  | Some DataChangeRun.Cleared =>
      DataChangeMutex.getLastData (DataChangeRun.object s) = JS.VNull
  | Some (DataChangeRun.Proceeded newData) =>
      DataChangeMutex.getLastData (DataChangeRun.object s) = newData
  | Some DataChangeRun.Skipped => False
  end.

(** * Properties *)

(** ** Runs of calls *)

Lemma mutex_run_app (W : Type) (cs1 cs2 : list (call W)) (m : Mutex.t W) :
  MutexRun.run (cs1 ++ cs2) m =
  (fst (MutexRun.run cs2 (fst (MutexRun.run cs1 m))),
   snd (MutexRun.run cs1 m) ++ snd (MutexRun.run cs2 (fst (MutexRun.run cs1 m)))).
Proof.
  revert m; induction cs1 as [|c cs1 IH]; intros m; simpl.
  - destruct (MutexRun.run cs2 m); reflexivity.
  - destruct (MutexRun.step c m) as [m1 e].
    rewrite IH.
    destruct (MutexRun.run cs1 m1) as [m2 es]; reflexivity.
Qed.

Lemma semaphore_run_app (W : Type) (cs1 cs2 : list (call W)) (s : Semaphore.t W) :
  SemaphoreRun.run (cs1 ++ cs2) s =
  (fst (SemaphoreRun.run cs2 (fst (SemaphoreRun.run cs1 s))),
   snd (SemaphoreRun.run cs1 s) ++ snd (SemaphoreRun.run cs2 (fst (SemaphoreRun.run cs1 s)))).
Proof.
  revert s; induction cs1 as [|c cs1 IH]; intros s; simpl.
  - destruct (SemaphoreRun.run cs2 s); reflexivity.
  - destruct (SemaphoreRun.step c s) as [s1 e].
    rewrite IH.
    destruct (SemaphoreRun.run cs1 s1) as [s2 es]; reflexivity.
Qed.

(** ** Mutex *)

(** On a held mutex every [acquire()] is parked behind the earlier ones. *)
Lemma mutex_acquire_held (W : Type) (ws q : list W) :
  MutexRun.run (map (@Acquire W) ws) (Mutex.mk true q) =
  (Mutex.mk true (q ++ ws), map (fun _ => Returned W Pending) ws).
Proof.
  revert q; induction ws as [|w ws IH]; intros q; simpl.
  - rewrite app_nil_r; reflexivity.
  - unfold Mutex.acquire; simpl.
    rewrite IH, <- app_assoc; reflexivity.
Qed.

(** One [release()] per queued waiter serves the queue from its head. *)
Lemma mutex_release_queue (W : Type) (b : bool) (ws1 ws2 : list W) :
  MutexRun.run (repeat Release (length ws1)) (Mutex.mk b (ws1 ++ ws2)) =
  (Mutex.mk b ws2, map (fun w => Resumed (Some w)) ws1).
Proof.
  induction ws1 as [|w ws1 IH]; simpl.
  - reflexivity.
  - rewrite IH; reflexivity.
Qed.

Lemma mutex_step_wf (W : Type) (c : call W) (m : Mutex.t W) :
  mutex_wf m -> mutex_wf (fst (MutexRun.step c m)).
Proof.
  destruct m as [b q]; unfold mutex_wf; intros Hwf; destruct c as [w|]; simpl.
  - unfold Mutex.acquire; simpl.
    destruct b; simpl; intros Hq; [reflexivity|reflexivity].
  - destruct q as [|w rest]; simpl; intros Hq.
    + contradiction.
    + apply Hwf; discriminate.
Qed.

Lemma mutex_run_wf (W : Type) (cs : list (call W)) (m : Mutex.t W) :
  mutex_wf m -> mutex_wf (fst (MutexRun.run cs m)).
Proof.
  revert m; induction cs as [|c cs IH]; intros m Hwf; simpl.
  - exact Hwf.
  - pose proof (mutex_step_wf c Hwf) as H1.
    destruct (MutexRun.step c m) as [m1 e]; simpl in H1.
    specialize (IH m1 H1).
    destruct (MutexRun.run cs m1) as [m2 es]; exact IH.
Qed.

(** C1: N [acquire()] calls on a fresh mutex: the first is resolved by the
    call itself and sets the flag, the others stay pending; each following
    [release()] resumes exactly one of them, in the order they called, and
    the flag stays set until the release after the last waiter. *)
Theorem mutex_fifo_service (W : Type) (w : W) (ws1 ws2 : list W) :
  MutexRun.run (map (@Acquire W) (w :: ws1 ++ ws2) ++ repeat Release (length ws1)) Mutex.new =
  (Mutex.mk true ws2,
   (Returned W Resolved :: map (fun _ => Returned W Pending) (ws1 ++ ws2))
   ++ map (fun x => Resumed (Some x)) ws1)
  /\ Mutex.isLocked (fst (MutexRun.run (map (@Acquire W) (w :: ws1 ++ ws2)) Mutex.new)) = true
  /\ MutexRun.run [Release] (Mutex.mk true (@nil W)) = (Mutex.new, [Resumed None]).
Proof.
  assert (Hacq : MutexRun.run (map (@Acquire W) (w :: ws1 ++ ws2)) Mutex.new =
                 (Mutex.mk true (ws1 ++ ws2),
                  Returned W Resolved :: map (fun _ => Returned W Pending) (ws1 ++ ws2))).
  { cbn [map MutexRun.run MutexRun.step].
    unfold Mutex.acquire at 1; simpl.
    rewrite mutex_acquire_held; reflexivity. }
  split; [|split].
  - rewrite mutex_run_app, Hacq; simpl fst; simpl snd.
    rewrite mutex_release_queue; reflexivity.
  - rewrite Hacq; reflexivity.
  - reflexivity.
Qed.

(** C2: in every state a mutex can reach, [release()] with waiters queued
    removes the earliest one, resumes it and leaves the flag set; with no
    waiter it clears the flag.  The queued path never writes the flag. *)
Theorem mutex_release_hands_over (W : Type) (cs : list (call W)) :
  match Mutex.waitQueue (fst (MutexRun.run cs (@Mutex.new W))) with
  | w :: rest =>
      Mutex.release (fst (MutexRun.run cs Mutex.new)) = (Mutex.mk true rest, Some w)
      /\ Mutex.isLocked (fst (MutexRun.run cs (@Mutex.new W))) = true
  | [] =>
      Mutex.release (fst (MutexRun.run cs Mutex.new)) = (Mutex.mk false [], None)
  end
  /\ (forall (b : bool) (w : W) (rest : list W),
        Mutex.release (Mutex.mk b (w :: rest)) = (Mutex.mk b rest, Some w)).
Proof.
  split; [|intros; reflexivity].
  assert (Hwf : mutex_wf (fst (MutexRun.run cs (@Mutex.new W)))).
  { apply mutex_run_wf; intros H; contradiction. }
  destruct (fst (MutexRun.run cs Mutex.new)) as [b q]; unfold mutex_wf in Hwf; simpl in *.
  destruct q as [|w rest].
  - reflexivity.
  - assert (b = true) by (apply Hwf; discriminate); subst b.
    split; reflexivity.
Qed.

(** ** Semaphore *)

(** While permits are left, each [acquire()] takes one and is resolved by the
    call itself. *)
Lemma semaphore_acquire_free (W : Type) (hs : list W) (p : Z) :
  Z.of_nat (length hs) <= p ->
  SemaphoreRun.run (map (@Acquire W) hs) (Semaphore.mk p []) =
  (Semaphore.mk (p - Z.of_nat (length hs)) [], repeat (Returned W Resolved) (length hs)).
Proof.
  revert p; induction hs as [|h hs IH]; intros p Hp.
  - simpl; rewrite Z.sub_0_r; reflexivity.
  - assert (Hlen : Z.of_nat (length (h :: hs)) = Z.of_nat (length hs) + 1)
      by (cbn [length]; lia).
    rewrite Hlen in *.
    cbn [map SemaphoreRun.run SemaphoreRun.step].
    unfold Semaphore.acquire; cbn [Semaphore.permits Semaphore.waitQueue].
    destruct (0 <? p) eqn:E; [|apply Z.ltb_ge in E; lia].
    rewrite IH by lia.
    cbn [length repeat]; do 2 f_equal; lia.
Qed.

(** With no permit left every [acquire()] is parked behind the earlier ones. *)
Lemma semaphore_acquire_exhausted (W : Type) (ws q : list W) :
  SemaphoreRun.run (map (@Acquire W) ws) (Semaphore.mk 0 q) =
  (Semaphore.mk 0 (q ++ ws), repeat (Returned W Pending) (length ws)).
Proof.
  revert q; induction ws as [|w ws IH]; intros q; simpl.
  - rewrite app_nil_r; reflexivity.
  - unfold Semaphore.acquire; simpl.
    rewrite IH, <- app_assoc; reflexivity.
Qed.

(** One [release()] per queued waiter serves the queue from its head and
    leaves the permit count alone. *)
Lemma semaphore_release_queue (W : Type) (p : Z) (ws1 ws2 : list W) :
  SemaphoreRun.run (repeat Release (length ws1)) (Semaphore.mk p (ws1 ++ ws2)) =
  (Semaphore.mk p ws2, map (fun w => Resumed (Some w)) ws1).
Proof.
  induction ws1 as [|w ws1 IH]; simpl.
  - reflexivity.
  - rewrite IH; reflexivity.
Qed.

(** C4: a semaphore of capacity C >= 1: the first C [acquire()] calls are
    resolved by the call itself, each taking one permit; every later call
    stays pending in the queue with [availablePermits()] at 0; the following
    [release()] calls admit the queued callers one each, in the order they
    asked. *)
Theorem semaphore_admission (W : Type) (C : Z) (hs ws1 ws2 : list W) :
  1 <= C ->
  Z.of_nat (length hs) = C ->
  (forall j : nat, (j <= length hs)%nat ->
     SemaphoreRun.run (map (@Acquire W) (firstn j hs)) (Semaphore.new C) =
     (Semaphore.mk (C - Z.of_nat j) [], repeat (Returned W Resolved) j))
  /\ SemaphoreRun.run (map (@Acquire W) (hs ++ ws1 ++ ws2)) (Semaphore.new C) =
     (Semaphore.mk 0 (ws1 ++ ws2),
      repeat (Returned W Resolved) (length hs)
      ++ repeat (Returned W Pending) (length (ws1 ++ ws2)))
  /\ Semaphore.availablePermits
       (fst (SemaphoreRun.run (map (@Acquire W) (hs ++ ws1 ++ ws2)) (Semaphore.new C))) = 0
  /\ SemaphoreRun.run
       (map (@Acquire W) (hs ++ ws1 ++ ws2) ++ repeat Release (length ws1)) (Semaphore.new C) =
     (Semaphore.mk 0 ws2,
      (repeat (Returned W Resolved) (length hs)
       ++ repeat (Returned W Pending) (length (ws1 ++ ws2)))
      ++ map (fun w => Resumed (Some w)) ws1).
Proof.
  intros HC Hlen.
  assert (Hall : SemaphoreRun.run (map (@Acquire W) (hs ++ ws1 ++ ws2)) (Semaphore.new C) =
                 (Semaphore.mk 0 (ws1 ++ ws2),
                  repeat (Returned W Resolved) (length hs)
                  ++ repeat (Returned W Pending) (length (ws1 ++ ws2)))).
  { rewrite map_app, semaphore_run_app.
    unfold Semaphore.new.
    rewrite semaphore_acquire_free by lia.
    cbn [fst snd].
    replace (C - Z.of_nat (length hs)) with 0 by lia.
    rewrite semaphore_acquire_exhausted; reflexivity. }
  split; [|split; [|split]].
  - intros j Hj.
    unfold Semaphore.new.
    rewrite semaphore_acquire_free; rewrite length_firstn, Nat.min_l by exact Hj.
    + reflexivity.
    + lia.
  - exact Hall.
  - rewrite Hall; reflexivity.
  - rewrite semaphore_run_app, Hall; cbn [fst snd].
    rewrite semaphore_release_queue; reflexivity.
Qed.

(** The scenario of the [sms] semaphore: capacity 3, five send attempts. *)
Lemma semaphore_admission_witness :
  1 <= 3 /\ Z.of_nat (length [1; 2; 3]%nat) = 3
  /\ SemaphoreRun.run
       (map (@Acquire nat) ([1; 2; 3] ++ [4; 5] ++ [])%nat ++ repeat Release (length [4; 5]%nat))
       (Semaphore.new 3) =
     (Semaphore.mk 0 [],
      (repeat (Returned nat Resolved) 3 ++ repeat (Returned nat Pending) 2)
      ++ [Resumed (Some 4%nat); Resumed (Some 5%nat)]).
Proof.
  split; [lia|split; [reflexivity|]].
  apply (@semaphore_admission nat 3 [1; 2; 3]%nat [4; 5]%nat []); [lia|reflexivity].
Defined.

Lemma semaphore_step_wf (W : Type) (c : call W) (s : Semaphore.t W) :
  semaphore_wf s -> semaphore_wf (fst (SemaphoreRun.step c s)).
Proof.
  destruct s as [p q]; unfold semaphore_wf; simpl; intros [Hp Hq].
  destruct c as [w|]; simpl.
  - unfold Semaphore.acquire; simpl.
    destruct (0 <? p) eqn:E; simpl.
    + apply Z.ltb_lt in E; split; [lia|].
      intros Hne; specialize (Hq Hne); lia.
    + apply Z.ltb_ge in E; split; [lia|intros _; lia].
  - destruct q as [|w rest]; simpl.
    + split; [lia|intros H; contradiction].
    + split; [lia|intros _; apply Hq; discriminate].
Qed.

Lemma semaphore_run_wf (W : Type) (cs : list (call W)) (s : Semaphore.t W) :
  semaphore_wf s -> semaphore_wf (fst (SemaphoreRun.run cs s)).
Proof.
  revert s; induction cs as [|c cs IH]; intros s Hwf; simpl.
  - exact Hwf.
  - pose proof (semaphore_step_wf c Hwf) as H1.
    destruct (SemaphoreRun.step c s) as [s1 e]; simpl in H1.
    specialize (IH s1 H1).
    destruct (SemaphoreRun.run cs s1) as [s2 es]; exact IH.
Qed.

(** In a disciplined run the free permits and the admitted callers add up
    to the capacity. *)
Lemma semaphore_disciplined_bound (W : Type) (C : Z) (cs : list (call W))
      (s : Semaphore.t W) (holders : Z) :
  0 <= holders ->
  Semaphore.permits s + holders = C ->
  SemaphoreRun.disciplined cs s holders = true ->
  Semaphore.permits (fst (SemaphoreRun.run cs s)) <= C.
Proof.
  revert s holders; induction cs as [|c cs IH]; intros s holders Hh Hsum Hd.
  - simpl; lia.
  - cbn [SemaphoreRun.disciplined SemaphoreRun.run] in *.
    destruct s as [p q]; simpl in Hsum; destruct c as [w|]; cbn [SemaphoreRun.step] in *.
    + unfold Semaphore.acquire in *; cbn [Semaphore.permits Semaphore.waitQueue] in *.
      destruct (0 <? p) eqn:E.
      * specialize (IH (Semaphore.mk (p - 1) q) (holders + 1)).
        destruct (SemaphoreRun.run cs (Semaphore.mk (p - 1) q)) as [s2 es].
        apply IH; simpl; [lia|lia|exact Hd].
      * specialize (IH (Semaphore.mk p (q ++ [w])) holders).
        destruct (SemaphoreRun.run cs (Semaphore.mk p (q ++ [w]))) as [s2 es].
        apply IH; simpl; [lia|lia|exact Hd].
    + destruct q as [|w rest]; cbn in Hd |- *;
        apply andb_true_iff in Hd; destruct Hd as [Hpos Hd]; apply Z.ltb_lt in Hpos.
      * specialize (IH (Semaphore.mk (p + 1) []) (holders - 1)).
        destruct (SemaphoreRun.run cs (Semaphore.mk (p + 1) [])) as [s2 es].
        apply IH; simpl; [lia|lia|exact Hd].
      * specialize (IH (Semaphore.mk p rest) (holders - 1 + 1)).
        destruct (SemaphoreRun.run cs (Semaphore.mk p rest)) as [s2 es].
        apply IH; simpl; [lia|lia|exact Hd].
Qed.

(** C5 (as the code has it): for a semaphore of capacity C >= 0, after any
    sequence of [acquire()] and [release()] calls the permit count is never
    negative and is 0 whenever a caller is queued; it stays within the
    capacity as long as every [release()] was issued by an admitted caller
    that had not released yet. *)
Theorem semaphore_permit_invariant (W : Type) (C : Z) (cs : list (call W)) :
  0 <= C ->
  0 <= Semaphore.permits (fst (SemaphoreRun.run cs (@Semaphore.new W C)))
  /\ (Semaphore.waitQueue (fst (SemaphoreRun.run cs (@Semaphore.new W C))) <> [] ->
      Semaphore.permits (fst (SemaphoreRun.run cs (@Semaphore.new W C))) = 0)
  /\ (SemaphoreRun.disciplined cs (@Semaphore.new W C) 0 = true ->
      Semaphore.permits (fst (SemaphoreRun.run cs (@Semaphore.new W C))) <= C).
Proof.
  intros HC.
  assert (Hwf : semaphore_wf (fst (SemaphoreRun.run cs (@Semaphore.new W C)))).
  { apply semaphore_run_wf; split; simpl; [exact HC|intros H; contradiction]. }
  destruct Hwf as [H0 Hq].
  split; [exact H0|split; [exact Hq|]].
  intros Hd.
  apply semaphore_disciplined_bound with (holders := 0); [lia|simpl; lia|exact Hd].
Qed.

Lemma semaphore_permit_invariant_witness :
  0 <= 3
  /\ 0 <= Semaphore.permits
            (fst (SemaphoreRun.run
                    [Acquire 1%nat; Acquire 2%nat; Release; Acquire 3%nat;
                     Acquire 4%nat; Acquire 5%nat; Release; Release]
                    (Semaphore.new 3)))
     <= 3.
Proof.
  split; [lia|].
  pose proof (@semaphore_permit_invariant nat 3
                [Acquire 1%nat; Acquire 2%nat; Release; Acquire 3%nat;
                 Acquire 4%nat; Acquire 5%nat; Release; Release]
                ltac:(lia)) as [H0 [_ Hle]].
  split; [exact H0|apply Hle; reflexivity].
Defined.

(** A [release()] that no admitted caller issued lifts the count above the
    capacity although nobody is queued. *)
Lemma semaphore_release_exceeds_capacity :
  Semaphore.waitQueue (fst (SemaphoreRun.run [Release] (@Semaphore.new nat 3))) = []
  /\ Semaphore.permits (fst (SemaphoreRun.run [Release] (@Semaphore.new nat 3))) = 4
  /\ ~ (0 <= Semaphore.permits (fst (SemaphoreRun.run [Release] (@Semaphore.new nat 3))) <= 3).
Proof.
  split; [reflexivity|split; [reflexivity|]].
  simpl; lia.
Qed.

(** C6 (as the code has it): [release()] on a primitive with no holder and
    no waiter resumes nobody and raises nothing; it leaves a mutex as it
    was, and adds one permit to a semaphore. *)
Theorem release_without_holder (W : Type) (p : Z) :
  Mutex.release (@Mutex.new W) = (Mutex.new, None)
  /\ Semaphore.release (Semaphore.mk p (@nil W)) = (Semaphore.mk (p + 1) [], None)
  /\ Semaphore.release (@Semaphore.new W p) = (Semaphore.new (p + 1), None).
Proof. repeat split. Qed.

(** On a semaphore with all its permits free, [release()] is not a no-op. *)
Lemma semaphore_release_not_noop :
  Semaphore.availablePermits (@Semaphore.new nat 3) = 3
  /\ Semaphore.availablePermits (fst (Semaphore.release (@Semaphore.new nat 3))) = 4
  /\ fst (Semaphore.release (@Semaphore.new nat 3)) <> Semaphore.new 3.
Proof.
  split; [reflexivity|split; [reflexivity|]].
  simpl; intros H; discriminate H.
Qed.

(** ** Scoped helpers *)

Lemma mutexKey_eqb_refl (k : Scoped.mutexKey) : Scoped.mutexKey_eqb k k = true.
Proof. destruct k; reflexivity. Qed.

Lemma semaphoreKey_eqb_refl (k : Scoped.semaphoreKey) : Scoped.semaphoreKey_eqb k k = true.
Proof. destruct k; reflexivity. Qed.

Lemma mutexes_wake (W : Type) (r : option W) (h : Scoped.heap W) :
  Scoped.mutexes (Scoped.wake r h) = Scoped.mutexes h.
Proof. destruct r; reflexivity. Qed.

Lemma semaphores_wake (W : Type) (r : option W) (h : Scoped.heap W) :
  Scoped.semaphores (Scoped.wake r h) = Scoped.semaphores h.
Proof. destruct r; reflexivity. Qed.

(** The finaliser of the helpers completes normally, so the body's
    completion is the completion of the whole [try]/[finally]. *)
Lemma try_finally_release_mutex (W E T : Type) (key : Scoped.mutexKey)
      (fn : Scoped.M W E T) (h : Scoped.heap W) :
  Scoped.try_finally fn (Scoped.release_mutex key) h =
  (fst (@Scoped.release_mutex W E key (fst (fn h))), snd (fn h)).
Proof.
  unfold Scoped.try_finally, Scoped.release_mutex.
  destruct (fn h) as [h1 c]; simpl.
  destruct (Mutex.release (Scoped.mutexes h1 key)); reflexivity.
Qed.

Lemma try_finally_release_semaphore (W E T : Type) (key : Scoped.semaphoreKey)
      (fn : Scoped.M W E T) (h : Scoped.heap W) :
  Scoped.try_finally fn (Scoped.release_semaphore key) h =
  (fst (@Scoped.release_semaphore W E key (fst (fn h))), snd (fn h)).
Proof.
  unfold Scoped.try_finally, Scoped.release_semaphore.
  destruct (fn h) as [h1 c]; simpl.
  destruct (Semaphore.release (Scoped.semaphores h1 key)); reflexivity.
Qed.

Lemma release_mutex_at (W E : Type) (key : Scoped.mutexKey) (h : Scoped.heap W) :
  Scoped.mutexes (fst (@Scoped.release_mutex W E key h)) key =
  fst (Mutex.release (Scoped.mutexes h key)).
Proof.
  unfold Scoped.release_mutex.
  destruct (Mutex.release (Scoped.mutexes h key)) as [m r]; simpl.
  rewrite mutexes_wake; simpl.
  rewrite mutexKey_eqb_refl; reflexivity.
Qed.

Lemma release_semaphore_at (W E : Type) (key : Scoped.semaphoreKey) (h : Scoped.heap W) :
  Scoped.semaphores (fst (@Scoped.release_semaphore W E key h)) key =
  fst (Semaphore.release (Scoped.semaphores h key)).
Proof.
  unfold Scoped.release_semaphore.
  destruct (Semaphore.release (Scoped.semaphores h key)) as [s r]; simpl.
  rewrite semaphores_wake; simpl.
  rewrite semaphoreKey_eqb_refl; reflexivity.
Qed.

(** C3: [withMutex] and [withSemaphore], on a free lock or permit and on
    the resumed path alike: whatever way [fn] completes, with a value or
    with a thrown error, the helper completes the same way, and it does so
    on the heap on which the release has been performed after [fn].  When
    nobody else touched the primitive, the mutex is unlocked, and the permit
    is back, once the helper has returned or rejected. *)
Theorem scoped_release_on_every_exit (W E T : Type) (resolve : W)
        (fn : Scoped.M W E T) (h : Scoped.heap W) :
  (forall (key : Scoped.mutexKey) (h2 : Scoped.heap W) (c : Scoped.completion E T),
      Mutex.isLocked (Scoped.mutexes h key) = false ->
      fn (Scoped.set_mutex key (Mutex.mk true (Mutex.waitQueue (Scoped.mutexes h key))) h)
      = (h2, c) ->
      Scoped.withMutex resolve key fn h
      = (fst (@Scoped.release_mutex W E key h2), Scoped.Settled c)
      /\ Scoped.mutexes (fst (Scoped.withMutex resolve key fn h)) key
         = fst (Mutex.release (Scoped.mutexes h2 key))
      /\ (Scoped.mutexes h2 key = Mutex.mk true [] ->
          Mutex.isLocked (Scoped.mutexes (fst (Scoped.withMutex resolve key fn h)) key)
          = false))
  /\ (forall (key : Scoped.mutexKey) (h2 : Scoped.heap W) (c : Scoped.completion E T),
      fn h = (h2, c) ->
      Scoped.withMutex_resumed key fn h = (fst (@Scoped.release_mutex W E key h2), c)
      /\ Scoped.mutexes (fst (Scoped.withMutex_resumed key fn h)) key
         = fst (Mutex.release (Scoped.mutexes h2 key)))
  /\ (forall (key : Scoped.semaphoreKey) (h2 : Scoped.heap W) (c : Scoped.completion E T),
      0 < Semaphore.availablePermits (Scoped.semaphores h key) ->
      fn (Scoped.set_semaphore key
            (Semaphore.mk (Semaphore.permits (Scoped.semaphores h key) - 1)
                          (Semaphore.waitQueue (Scoped.semaphores h key))) h)
      = (h2, c) ->
      Scoped.withSemaphore resolve key fn h
      = (fst (@Scoped.release_semaphore W E key h2), Scoped.Settled c)
      /\ Scoped.semaphores (fst (Scoped.withSemaphore resolve key fn h)) key
         = fst (Semaphore.release (Scoped.semaphores h2 key))
      /\ (Scoped.semaphores h2 key
          = Semaphore.mk (Semaphore.permits (Scoped.semaphores h key) - 1) [] ->
          Semaphore.availablePermits
            (Scoped.semaphores (fst (Scoped.withSemaphore resolve key fn h)) key)
          = Semaphore.availablePermits (Scoped.semaphores h key)))
  /\ (forall (key : Scoped.semaphoreKey) (h2 : Scoped.heap W) (c : Scoped.completion E T),
      fn h = (h2, c) ->
      Scoped.withSemaphore_resumed key fn h
      = (fst (@Scoped.release_semaphore W E key h2), c)
      /\ Scoped.semaphores (fst (Scoped.withSemaphore_resumed key fn h)) key
         = fst (Semaphore.release (Scoped.semaphores h2 key))).
Proof.
  split; [|split; [|split]].
  - intros key h2 c Hfree Hfn.
    assert (Hrun : Scoped.withMutex resolve key fn h
                   = (fst (@Scoped.release_mutex W E key h2), Scoped.Settled c)).
    { unfold Scoped.withMutex, Mutex.acquire.
      unfold Mutex.isLocked in Hfree; rewrite Hfree; cbn [negb].
      unfold Scoped.withMutex_resumed.
      rewrite try_finally_release_mutex, Hfn; reflexivity. }
    split; [exact Hrun|].
    rewrite Hrun; cbn [fst].
    rewrite release_mutex_at.
    split; [reflexivity|].
    intros Hsame; rewrite Hsame; reflexivity.
  - intros key h2 c Hfn.
    unfold Scoped.withMutex_resumed.
    rewrite try_finally_release_mutex, Hfn; cbn [fst snd].
    split; [reflexivity|apply release_mutex_at].
  - intros key h2 c Hfree Hfn.
    assert (Hrun : Scoped.withSemaphore resolve key fn h
                   = (fst (@Scoped.release_semaphore W E key h2), Scoped.Settled c)).
    { unfold Scoped.withSemaphore, Semaphore.acquire.
      unfold Semaphore.availablePermits in Hfree.
      apply Z.ltb_lt in Hfree; rewrite Hfree.
      unfold Scoped.withSemaphore_resumed.
      rewrite try_finally_release_semaphore, Hfn; reflexivity. }
    split; [exact Hrun|].
    rewrite Hrun; cbn [fst].
    rewrite release_semaphore_at.
    split; [reflexivity|].
    intros Hsame; rewrite Hsame; simpl.
    unfold Semaphore.availablePermits; lia.
  - intros key h2 c Hfn.
    unfold Scoped.withSemaphore_resumed.
    rewrite try_finally_release_semaphore, Hfn; cbn [fst snd].
    split; [reflexivity|apply release_semaphore_at].
Qed.

(** [withMutex('contacts', fn)] with an [fn] that throws, on the fresh
    registries: the call rejects with the error of [fn] and the mutex is
    unlocked. *)
Lemma scoped_release_on_every_exit_witness :
  snd (Scoped.withMutex 0%nat Scoped.contacts
         (fun h => (h, @Scoped.Throw nat unit 7%nat)) Scoped.init)
  = Scoped.Settled (Scoped.Throw 7%nat)
  /\ Mutex.isLocked
       (Scoped.mutexes
          (fst (Scoped.withMutex 0%nat Scoped.contacts
                  (fun h => (h, @Scoped.Throw nat unit 7%nat)) Scoped.init))
          Scoped.contacts) = false.
Proof.
  destruct (@scoped_release_on_every_exit nat nat unit 0%nat
              (fun h => (h, Scoped.Throw 7%nat)) Scoped.init) as [Hm _].
  destruct (Hm Scoped.contacts _ _ eq_refl eq_refl) as [Hrun [_ Hfree]].
  split.
  - rewrite Hrun; reflexivity.
  - apply Hfree; reflexivity.
Defined.

(** ** DataChangeMutex *)

(** C7: [acquireIfChanged(newData, compareFunction)], with [defaultCompare]
    when no function is passed.  With a baseline that the comparison judges
    equal to [newData] the call returns [false] and leaves the object as it
    was: nothing acquired, nothing queued.  With a baseline judged
    different, and with no baseline whatever the comparison says, the call
    performs [acquire()] on the mutex; after the [await] it stores [newData]
    as the baseline and returns [true], which on a free lock is the whole
    call. *)
Theorem acquireIfChanged_gate (W : Type) (resolve : W) (newData : JS.value)
        (compareFunction : option (JS.value -> JS.value -> bool))
        (this : DataChangeMutex.t W) :
  let compare := match compareFunction with Some f => f | None => defaultCompare end in
  (JS.strict_eq (DataChangeMutex.lastData this) JS.VNull = false ->
   compare (DataChangeMutex.lastData this) newData = true ->
   DataChangeMutex.acquireIfChanged_enter resolve newData compareFunction this
   = (this, DataChangeMutex.Return false)
   /\ DataChangeMutex.acquireIfChanged resolve newData compareFunction this
      = (this, Some false))
  /\ (JS.strict_eq (DataChangeMutex.lastData this) JS.VNull = false ->
      compare (DataChangeMutex.lastData this) newData = false ->
      DataChangeMutex.acquireIfChanged_enter resolve newData compareFunction this
      = (DataChangeMutex.mk (fst (Mutex.acquire resolve (DataChangeMutex.super this)))
                            (DataChangeMutex.lastData this),
         DataChangeMutex.Await (snd (Mutex.acquire resolve (DataChangeMutex.super this)))))
  /\ (DataChangeMutex.lastData this = JS.VNull ->
      DataChangeMutex.acquireIfChanged_enter resolve newData compareFunction this
      = (DataChangeMutex.mk (fst (Mutex.acquire resolve (DataChangeMutex.super this)))
                            (DataChangeMutex.lastData this),
         DataChangeMutex.Await (snd (Mutex.acquire resolve (DataChangeMutex.super this)))))
  /\ (forall that : DataChangeMutex.t W,
      DataChangeMutex.acquireIfChanged_resume newData that
      = (DataChangeMutex.mk (DataChangeMutex.super that) newData, true))
  /\ (Mutex.isLocked (DataChangeMutex.super this) = false ->
      DataChangeMutex.lastData this = JS.VNull
      \/ compare (DataChangeMutex.lastData this) newData = false ->
      DataChangeMutex.acquireIfChanged resolve newData compareFunction this
      = (DataChangeMutex.mk
           (Mutex.mk true (Mutex.waitQueue (DataChangeMutex.super this))) newData,
         Some true)).
Proof.
  intros compare.
  destruct this as [m d]; cbn [DataChangeMutex.lastData DataChangeMutex.super].
  assert (Hnull : d = JS.VNull ->
            DataChangeMutex.acquireIfChanged_enter resolve newData compareFunction
              (DataChangeMutex.mk m d)
            = (DataChangeMutex.mk (fst (Mutex.acquire resolve m)) d,
               DataChangeMutex.Await (snd (Mutex.acquire resolve m)))).
  { intros ->; unfold DataChangeMutex.acquireIfChanged_enter; simpl.
    destruct (Mutex.acquire resolve m); reflexivity. }
  assert (Hdiff : JS.strict_eq d JS.VNull = false -> compare d newData = false ->
            DataChangeMutex.acquireIfChanged_enter resolve newData compareFunction
              (DataChangeMutex.mk m d)
            = (DataChangeMutex.mk (fst (Mutex.acquire resolve m)) d,
               DataChangeMutex.Await (snd (Mutex.acquire resolve m)))).
  { intros Hbase Hcmp; unfold DataChangeMutex.acquireIfChanged_enter.
    cbn [DataChangeMutex.lastData DataChangeMutex.super].
    rewrite Hbase; fold compare; rewrite Hcmp; cbn [negb].
    destruct (Mutex.acquire resolve m); reflexivity. }
  assert (Hsame : JS.strict_eq d JS.VNull = false -> compare d newData = true ->
            DataChangeMutex.acquireIfChanged_enter resolve newData compareFunction
              (DataChangeMutex.mk m d)
            = (DataChangeMutex.mk m d, DataChangeMutex.Return false)).
  { intros Hbase Hcmp; unfold DataChangeMutex.acquireIfChanged_enter.
    cbn [DataChangeMutex.lastData DataChangeMutex.super].
    rewrite Hbase; fold compare; rewrite Hcmp; reflexivity. }
  split; [|split; [|split; [|split]]].
  - intros Hbase Hcmp; split; [apply Hsame; assumption|].
    unfold DataChangeMutex.acquireIfChanged; rewrite Hsame by assumption; reflexivity.
  - exact Hdiff.
  - exact Hnull.
  - intros that; reflexivity.
  - intros Hfree Hgo.
    assert (Henter : DataChangeMutex.acquireIfChanged_enter resolve newData compareFunction
                       (DataChangeMutex.mk m d)
                     = (DataChangeMutex.mk (fst (Mutex.acquire resolve m)) d,
                        DataChangeMutex.Await (snd (Mutex.acquire resolve m)))).
    { destruct Hgo as [Hn|Hc]; [apply Hnull; exact Hn|].
      destruct (JS.strict_eq d JS.VNull) eqn:Hbase.
      - apply Hnull.
        destruct d; simpl in Hbase; try discriminate; reflexivity.
      - apply Hdiff; [reflexivity|exact Hc]. }
    unfold DataChangeMutex.acquireIfChanged; rewrite Henter.
    unfold Mutex.acquire; unfold Mutex.isLocked in Hfree; rewrite Hfree; reflexivity.
Qed.

(** [acquireIfChanged(X)] on a fresh object, then
    [acquireIfChanged] of a second object with the same JSON text: the first
    call returns [true], the second returns [false] and changes nothing. *)
Lemma acquireIfChanged_gate_witness :
  DataChangeMutex.acquireIfChanged 0%nat
    (JS.VObject 1 [("id"%string, JS.VNumber (JS.Num 7))]) None DataChangeMutex.new
  = (DataChangeMutex.mk (Mutex.mk true [])
       (JS.VObject 1 [("id"%string, JS.VNumber (JS.Num 7))]), Some true)
  /\ DataChangeMutex.acquireIfChanged 1%nat
       (JS.VObject 2 [("id"%string, JS.VNumber (JS.Num 7))]) None
       (DataChangeMutex.mk (Mutex.mk true [])
          (JS.VObject 1 [("id"%string, JS.VNumber (JS.Num 7))]))
     = (DataChangeMutex.mk (Mutex.mk true [])
          (JS.VObject 1 [("id"%string, JS.VNumber (JS.Num 7))]), Some false).
Proof.
  split.
  - apply (@acquireIfChanged_gate nat 0%nat
             (JS.VObject 1 [("id"%string, JS.VNumber (JS.Num 7))]) None DataChangeMutex.new);
      [reflexivity|left; reflexivity].
  - apply (@acquireIfChanged_gate nat 1%nat
             (JS.VObject 2 [("id"%string, JS.VNumber (JS.Num 7))]) None
             (DataChangeMutex.mk (Mutex.mk true [])
                (JS.VObject 1 [("id"%string, JS.VNumber (JS.Num 7))])));
      reflexivity.
Defined.

(** C8: [releaseWithData(true)] performs [release()] on the mutex and sets
    the baseline to [null]; the [acquireIfChanged(X)] called next then goes
    for the lock whatever [X] and the comparison are, and returns [true]
    after its [await] (at once when no waiter took the lock over).
    [releaseWithData(false)] and [releaseWithData()] perform the same
    [release()] and keep the baseline. *)
Theorem releaseWithData_clears_baseline (W : Type) (resolve : W) (X : JS.value)
        (compareFunction : option (JS.value -> JS.value -> bool))
        (this : DataChangeMutex.t W) :
  let cleared := fst (DataChangeMutex.releaseWithData (Some true) this) in
  DataChangeMutex.releaseWithData (Some true) this
  = (DataChangeMutex.mk (fst (Mutex.release (DataChangeMutex.super this))) JS.VNull,
     snd (Mutex.release (DataChangeMutex.super this)))
  /\ DataChangeMutex.getLastData cleared = JS.VNull
  /\ DataChangeMutex.acquireIfChanged_enter resolve X compareFunction cleared
     = (DataChangeMutex.mk (fst (Mutex.acquire resolve (DataChangeMutex.super cleared)))
                           JS.VNull,
        DataChangeMutex.Await (snd (Mutex.acquire resolve (DataChangeMutex.super cleared))))
  /\ (forall that : DataChangeMutex.t W,
      DataChangeMutex.acquireIfChanged_resume X that
      = (DataChangeMutex.mk (DataChangeMutex.super that) X, true))
  /\ match Mutex.waitQueue (DataChangeMutex.super this) with
     | [] => DataChangeMutex.acquireIfChanged resolve X compareFunction cleared
             = (DataChangeMutex.mk (Mutex.mk true []) X, Some true)
     | _ :: _ => True
     end
  /\ DataChangeMutex.releaseWithData (Some false) this
     = (DataChangeMutex.mk (fst (Mutex.release (DataChangeMutex.super this)))
                           (DataChangeMutex.lastData this),
        snd (Mutex.release (DataChangeMutex.super this)))
  /\ DataChangeMutex.releaseWithData None this
     = DataChangeMutex.releaseWithData (Some false) this.
Proof.
  intros cleared; subst cleared.
  destruct this as [[b q] d].
  unfold DataChangeMutex.releaseWithData, DataChangeMutex.getLastData.
  cbn [DataChangeMutex.super DataChangeMutex.lastData].
  destruct (Mutex.release (Mutex.mk b q)) as [m r] eqn:Hrel.
  cbn [fst snd DataChangeMutex.super DataChangeMutex.lastData].
  assert (Henter : DataChangeMutex.acquireIfChanged_enter resolve X compareFunction
                     (DataChangeMutex.mk m JS.VNull)
                   = (DataChangeMutex.mk (fst (Mutex.acquire resolve m)) JS.VNull,
                      DataChangeMutex.Await (snd (Mutex.acquire resolve m)))).
  { unfold DataChangeMutex.acquireIfChanged_enter; simpl.
    destruct (Mutex.acquire resolve m); reflexivity. }
  repeat split; try reflexivity; try exact Henter.
  cbn [Mutex.waitQueue].
  destruct q as [|w rest]; [|exact I].
  unfold DataChangeMutex.acquireIfChanged; rewrite Henter.
  cbn in Hrel; injection Hrel as <- <-; reflexivity.
Qed.

(** [acquireIfChanged] never writes the baseline before its [await], and the
    only value it returns there is [false]. *)
Lemma acquireIfChanged_enter_keeps (W : Type) (resolve : W) (newData : JS.value)
      (compareFunction : option (JS.value -> JS.value -> bool))
      (this : DataChangeMutex.t W) :
  DataChangeMutex.lastData
    (fst (DataChangeMutex.acquireIfChanged_enter resolve newData compareFunction this))
  = DataChangeMutex.lastData this
  /\ snd (DataChangeMutex.acquireIfChanged_enter resolve newData compareFunction this)
     <> DataChangeMutex.Return true.
Proof.
  unfold DataChangeMutex.acquireIfChanged_enter.
  destruct (JS.strict_eq (DataChangeMutex.lastData this) JS.VNull).
  - destruct (Mutex.acquire resolve (DataChangeMutex.super this)); simpl.
    split; [reflexivity|discriminate].
  - destruct (negb _).
    + destruct (Mutex.acquire resolve (DataChangeMutex.super this)); simpl.
      split; [reflexivity|discriminate].
    + simpl; split; [reflexivity|discriminate].
Qed.

Lemma step_baseline_matches_trace (k : DataChangeRun.step_kind) (s : DataChangeRun.state) :
  baseline_matches_trace s -> baseline_matches_trace (DataChangeRun.step k s).
Proof.
  unfold baseline_matches_trace, DataChangeMutex.getLastData.
  destruct s as [o rdy tr]; cbn [DataChangeRun.object DataChangeRun.trace].
  intros Hinv; destruct k as [| |newData cmp|clearData|i]; cbn [DataChangeRun.step].
  - cbn [DataChangeRun.object DataChangeRun.ready DataChangeRun.trace].
    destruct (Mutex.acquire _ _); exact Hinv.
  - cbn [DataChangeRun.object DataChangeRun.ready DataChangeRun.trace].
    destruct (Mutex.release _); exact Hinv.
  - cbn [DataChangeRun.object DataChangeRun.ready DataChangeRun.trace].
    destruct (acquireIfChanged_enter_keeps
                (DataChangeRun.AfterAcquireIfChanged newData) newData cmp o) as [Hkeep Hret].
    destruct (DataChangeMutex.acquireIfChanged_enter _ newData cmp o) as [o' pr].
    cbn [fst snd] in Hkeep, Hret.
    destruct pr as [[|]|[|]]; cbn [DataChangeRun.object DataChangeRun.trace DataChangeRun.last_write];
      try (rewrite Hkeep; exact Hinv).
    exfalso; apply Hret; reflexivity.
  - cbn [DataChangeRun.object DataChangeRun.ready DataChangeRun.trace].
    unfold DataChangeMutex.releaseWithData.
    destruct clearData as [[|]|];
      destruct (Mutex.release _); cbn; try exact Hinv; reflexivity.
  - cbn [DataChangeRun.object DataChangeRun.ready DataChangeRun.trace].
    destruct (nth_error rdy i) as [[|newData]|]; cbn; try exact Hinv; reflexivity.
Qed.

Lemma run_baseline_matches_trace (ks : list DataChangeRun.step_kind) (s : DataChangeRun.state) :
  baseline_matches_trace s -> baseline_matches_trace (DataChangeRun.run ks s).
Proof.
  revert s; induction ks as [|k ks IH]; intros s Hinv; simpl.
  - exact Hinv.
  - apply IH, step_baseline_matches_trace, Hinv.
Qed.

(** C9 (as the code has it): along every history of a DataChangeMutex,
    [lastData] is the [newData] of the latest [acquireIfChanged] that
    returned [true] unless a [releaseWithData(true)] came after it; it is
    [null] before the first such call and after such a clear, and otherwise
    only when that latest [newData] is [null] itself. *)
Theorem lastData_is_latest_write (ks : list DataChangeRun.step_kind) :
  match DataChangeRun.last_write (DataChangeRun.trace (DataChangeRun.run ks DataChangeRun.init)) with
  | None =>
      DataChangeMutex.getLastData
        (DataChangeRun.object (DataChangeRun.run ks DataChangeRun.init)) = JS.VNull
  | Some DataChangeRun.Cleared =>
      DataChangeMutex.getLastData
        (DataChangeRun.object (DataChangeRun.run ks DataChangeRun.init)) = JS.VNull
  | Some (DataChangeRun.Proceeded newData) =>
      DataChangeMutex.getLastData
        (DataChangeRun.object (DataChangeRun.run ks DataChangeRun.init)) = newData
  | Some DataChangeRun.Skipped => False
  end.
Proof.
  apply (@run_baseline_matches_trace ks DataChangeRun.init).
  reflexivity.
Qed.

(** [acquireIfChanged(null)] on a fresh object returns [true]; no clear ever
    happened, and [getLastData()] is [null]. *)
Lemma lastData_null_after_acquisition :
  DataChangeRun.trace
    (DataChangeRun.run
       [DataChangeRun.CallAcquireIfChanged JS.VNull None; DataChangeRun.Resume 0]
       DataChangeRun.init)
  = [DataChangeRun.Proceeded JS.VNull]
  /\ DataChangeMutex.getLastData
       (DataChangeRun.object
          (DataChangeRun.run
             [DataChangeRun.CallAcquireIfChanged JS.VNull None; DataChangeRun.Resume 0]
             DataChangeRun.init))
     = JS.VNull.
Proof. split; reflexivity. Qed.

(** ** defaultCompare *)

Lemma text_strict_eq_iff (x y : option string) :
  JS.text_strict_eq x y = true <-> x = y.
Proof.
  destruct x as [x|], y as [y|]; simpl.
  - rewrite String.eqb_eq; split; [intros ->; reflexivity|intros H; injection H; trivial].
  - split; discriminate.
  - split; discriminate.
  - split; reflexivity.
Qed.

(** C10: [defaultCompare(a, b)]: values whose [typeof] differ are unequal;
    two objects other than [null] are equal exactly when [JSON.stringify]
    gives the same text for both, so the order of the keys counts and a
    property without JSON text does not; a value that is not an object is
    equal to [b] exactly when [a === b]; a [null] baseline is equal to
    nothing. *)
Theorem defaultCompare_cases (a b : JS.value) :
  (JS.typeof a <> JS.typeof b -> defaultCompare a b = false)
  /\ (JS.typeof a = "object"%string -> JS.typeof b = "object"%string ->
      a <> JS.VNull -> b <> JS.VNull ->
      (defaultCompare a b = true <-> JS.JSON_stringify a = JS.JSON_stringify b))
  /\ (JS.typeof a <> "object"%string -> defaultCompare a b = JS.strict_eq a b)
  /\ defaultCompare JS.VNull b = false
  /\ defaultCompare
       (JS.VObject 1 [("a"%string, JS.VNumber (JS.Num 1)); ("b"%string, JS.VNumber (JS.Num 2))])
       (JS.VObject 2 [("b"%string, JS.VNumber (JS.Num 2)); ("a"%string, JS.VNumber (JS.Num 1))])
     = false
  /\ defaultCompare
       (JS.VObject 1 [("a"%string, JS.VNumber (JS.Num 1)); ("b"%string, JS.VUndefined)])
       (JS.VObject 2 [("a"%string, JS.VNumber (JS.Num 1))])
     = true.
Proof.
  split; [|split; [|split; [|split; [|split]]]]; try reflexivity.
  - intros Hty; unfold defaultCompare.
    destruct (JS.strict_eq a JS.VNull); [reflexivity|].
    destruct (String.eqb (JS.typeof a) (JS.typeof b)) eqn:E; [|reflexivity].
    apply String.eqb_eq in E; contradiction.
  - intros Ha Hb Hna Hnb; unfold defaultCompare.
    assert (Hnull : JS.strict_eq a JS.VNull = false)
      by (destruct a; try reflexivity; contradiction).
    rewrite Hnull, Ha, Hb; cbn.
    apply text_strict_eq_iff.
  - intros Hty.
    destruct a; try (exfalso; apply Hty; reflexivity);
      destruct b; reflexivity.
Qed.

(** Two numbers, compared by [===]; two objects, compared by their text. *)
Lemma defaultCompare_cases_witness :
  defaultCompare (JS.VNumber (JS.Num 3)) (JS.VNumber (JS.Num 3)) = true
  /\ defaultCompare (JS.VNumber JS.NaN) (JS.VNumber JS.NaN) = false
  /\ defaultCompare (JS.VString "3") (JS.VNumber (JS.Num 3)) = false
  /\ (defaultCompare (JS.VArray 1 [JS.VNull]) (JS.VArray 2 [JS.VUndefined]) = true
      <-> JS.JSON_stringify (JS.VArray 1 [JS.VNull]) = JS.JSON_stringify (JS.VArray 2 [JS.VUndefined])).
Proof.
  pose proof (defaultCompare_cases (JS.VNumber (JS.Num 3)) (JS.VNumber (JS.Num 3)))
    as [_ [_ [H3 _]]].
  pose proof (defaultCompare_cases (JS.VNumber JS.NaN) (JS.VNumber JS.NaN))
    as [_ [_ [Hnan _]]].
  pose proof (defaultCompare_cases (JS.VString "3") (JS.VNumber (JS.Num 3)))
    as [Hty _].
  pose proof (defaultCompare_cases (JS.VArray 1 [JS.VNull]) (JS.VArray 2 [JS.VUndefined]))
    as [_ [Hobj _]].
  split; [|split; [|split]].
  - rewrite H3; [reflexivity|discriminate].
  - rewrite Hnan; [reflexivity|discriminate].
  - apply Hty; discriminate.
  - apply Hobj; [reflexivity|reflexivity|discriminate|discriminate].
Defined.

(** * Further properties of the primitives *)

(** ** Queues under arbitrary interleavings *)

(** X1: whatever the interleaving of [acquire()] and [release()] calls on a
    mutex, and whatever state it starts in, the callers that were parked
    are resumed in the order they called and none is lost or served twice:
    the waiters queued at the start followed by the callers parked since
    are the callers resumed so far followed by those still queued. *)
Theorem mutex_queue_is_fifo (W : Type) (cs : list (call W)) (m : Mutex.t W) :
  Mutex.waitQueue m ++ Observe.parked cs (snd (MutexRun.run cs m))
  = Observe.served (snd (MutexRun.run cs m)) ++ Mutex.waitQueue (fst (MutexRun.run cs m)).
Proof.
  revert m; induction cs as [|c cs IH]; intros m.
  - simpl; rewrite app_nil_r; reflexivity.
  - destruct m as [b q]; destruct c as [w|]; cbn [MutexRun.run MutexRun.step].
    + unfold Mutex.acquire; cbn [Mutex.locked Mutex.waitQueue].
      destruct b; cbn [negb].
      * specialize (IH (Mutex.mk true (q ++ [w]))).
        destruct (MutexRun.run cs (Mutex.mk true (q ++ [w]))) as [m2 es].
        cbn [fst snd Observe.parked Observe.served Mutex.waitQueue] in *.
        rewrite <- IH, <- app_assoc; reflexivity.
      * specialize (IH (Mutex.mk true q)).
        destruct (MutexRun.run cs (Mutex.mk true q)) as [m2 es].
        cbn [fst snd Observe.parked Observe.served Mutex.waitQueue] in *.
        exact IH.
    + destruct q as [|w rest]; cbn.
      * specialize (IH (Mutex.mk false [])).
        destruct (MutexRun.run cs (Mutex.mk false [])) as [m2 es].
        cbn [fst snd Observe.parked Observe.served Mutex.waitQueue] in *.
        exact IH.
      * specialize (IH (Mutex.mk b rest)).
        destruct (MutexRun.run cs (Mutex.mk b rest)) as [m2 es].
        cbn [fst snd Observe.parked Observe.served Mutex.waitQueue] in *.
        simpl; rewrite IH; reflexivity.
Qed.

(** X2: the same for a semaphore, whatever its permit count. *)
Theorem semaphore_queue_is_fifo (W : Type) (cs : list (call W)) (s : Semaphore.t W) :
  Semaphore.waitQueue s ++ Observe.parked cs (snd (SemaphoreRun.run cs s))
  = Observe.served (snd (SemaphoreRun.run cs s))
    ++ Semaphore.waitQueue (fst (SemaphoreRun.run cs s)).
Proof.
  revert s; induction cs as [|c cs IH]; intros s.
  - simpl; rewrite app_nil_r; reflexivity.
  - destruct s as [p q]; destruct c as [w|]; cbn [SemaphoreRun.run SemaphoreRun.step].
    + unfold Semaphore.acquire; cbn [Semaphore.permits Semaphore.waitQueue].
      destruct (0 <? p).
      * specialize (IH (Semaphore.mk (p - 1) q)).
        destruct (SemaphoreRun.run cs (Semaphore.mk (p - 1) q)) as [s2 es].
        cbn [fst snd Observe.parked Observe.served Semaphore.waitQueue] in *.
        exact IH.
      * specialize (IH (Semaphore.mk p (q ++ [w]))).
        destruct (SemaphoreRun.run cs (Semaphore.mk p (q ++ [w]))) as [s2 es].
        cbn [fst snd Observe.parked Observe.served Semaphore.waitQueue] in *.
        rewrite <- IH, <- app_assoc; reflexivity.
    + destruct q as [|w rest]; cbn.
      * specialize (IH (Semaphore.mk (p + 1) [])).
        destruct (SemaphoreRun.run cs (Semaphore.mk (p + 1) [])) as [s2 es].
        cbn [fst snd Observe.parked Observe.served Semaphore.waitQueue] in *.
        exact IH.
      * specialize (IH (Semaphore.mk p rest)).
        destruct (SemaphoreRun.run cs (Semaphore.mk p rest)) as [s2 es].
        cbn [fst snd Observe.parked Observe.served Semaphore.waitQueue] in *.
        simpl; rewrite IH; reflexivity.
Qed.

(** X3: no overtaking.  In every state reachable from a fresh mutex, and
    from a semaphore built with a capacity C >= 0, an [acquire()] is
    resolved by the call itself only when nobody is queued. *)
Theorem acquire_never_overtakes (W : Type) (C : Z) (cs : list (call W)) (w : W) :
  0 <= C ->
  (snd (Mutex.acquire w (fst (MutexRun.run cs (@Mutex.new W)))) = Resolved ->
   Mutex.waitQueue (fst (MutexRun.run cs (@Mutex.new W))) = [])
  /\ (snd (Semaphore.acquire w (fst (SemaphoreRun.run cs (@Semaphore.new W C)))) = Resolved ->
      Semaphore.waitQueue (fst (SemaphoreRun.run cs (@Semaphore.new W C))) = []).
Proof.
  intros HC; split.
  - assert (Hwf : mutex_wf (fst (MutexRun.run cs (@Mutex.new W))))
      by (apply mutex_run_wf; intros H; contradiction).
    destruct (fst (MutexRun.run cs Mutex.new)) as [b q]; unfold mutex_wf in Hwf.
    unfold Mutex.acquire; simpl in *.
    destruct b; simpl; [discriminate|].
    intros _; destruct q as [|x q]; [reflexivity|].
    assert (false = true) by (apply Hwf; discriminate); discriminate.
  - assert (Hwf : semaphore_wf (fst (SemaphoreRun.run cs (@Semaphore.new W C))))
      by (apply semaphore_run_wf; split; simpl; [exact HC|intros H; contradiction]).
    destruct (fst (SemaphoreRun.run cs (Semaphore.new C))) as [p q].
    destruct Hwf as [Hp Hq]; unfold Semaphore.acquire; simpl in *.
    destruct (0 <? p) eqn:E; simpl; [|discriminate].
    intros _; destruct q as [|x q]; [reflexivity|].
    apply Z.ltb_lt in E.
    assert (p = 0) by (apply Hq; discriminate); lia.
Qed.

Lemma acquire_never_overtakes_witness :
  0 <= 2
  /\ Mutex.waitQueue
       (fst (MutexRun.run [Acquire 1%nat; Acquire 2%nat; Release; Release] (@Mutex.new nat))) = []
  /\ Semaphore.waitQueue
       (fst (SemaphoreRun.run [Acquire 1%nat; Acquire 2%nat; Acquire 3%nat; Release; Release]
               (@Semaphore.new nat 2))) = [].
Proof.
  split; [lia|split].
  - apply (@acquire_never_overtakes nat 2
             [Acquire 1%nat; Acquire 2%nat; Release; Release] 9%nat ltac:(lia)).
    reflexivity.
  - refine (proj2 (@acquire_never_overtakes nat 2
                     [Acquire 1%nat; Acquire 2%nat; Acquire 3%nat; Release; Release] 9%nat
                     ltac:(lia)) _).
    reflexivity.
Defined.

(** ** Holders *)

Lemma holders_cons (W : Type) (e : effect W) (es : list (effect W)) (h : Z) :
  Observe.holders (e :: es) h = Observe.holders es (SemaphoreRun.holders_after e h).
Proof. reflexivity. Qed.

(** In a disciplined run on a mutex the flag says whether somebody holds it. *)
Lemma mutex_disciplined_holders (W : Type) (cs : list (call W)) (m : Mutex.t W) (h : Z) :
  h = (if Mutex.locked m then 1 else 0) ->
  MutexDiscipline.disciplined cs m h = true ->
  Observe.holders (snd (MutexRun.run cs m)) h
  = (if Mutex.locked (fst (MutexRun.run cs m)) then 1 else 0).
Proof.
  revert m h; induction cs as [|c cs IH]; intros m h Hh Hd.
  - exact Hh.
  - destruct m as [b q]; cbn [Mutex.locked] in Hh.
    cbn [MutexDiscipline.disciplined MutexRun.run] in *.
    destruct c as [w|]; cbn [MutexRun.step] in *.
    + unfold Mutex.acquire in *; cbn [Mutex.locked Mutex.waitQueue] in *.
      destruct b; cbn [negb] in *.
      * specialize (IH (Mutex.mk true (q ++ [w])) h Hh Hd).
        destruct (MutexRun.run cs (Mutex.mk true (q ++ [w]))) as [m2 es].
        cbn [fst snd] in *; rewrite holders_cons; exact IH.
      * assert (Hh1 : SemaphoreRun.holders_after (Returned W Resolved) h = 1)
          by (simpl; lia).
        rewrite Hh1 in Hd.
        specialize (IH (Mutex.mk true q) 1 eq_refl Hd).
        destruct (MutexRun.run cs (Mutex.mk true q)) as [m2 es].
        cbn [fst snd] in *; rewrite holders_cons, Hh1; exact IH.
    + destruct q as [|w rest]; cbn in Hd |- *;
        apply andb_true_iff in Hd; destruct Hd as [Hpos Hd]; apply Z.ltb_lt in Hpos;
        (destruct b; [|lia]); subst h.
      * specialize (IH (Mutex.mk false []) 0 eq_refl Hd).
        destruct (MutexRun.run cs (Mutex.mk false [])) as [m2 es].
        unfold Observe.holders in *; cbn in *; exact IH.
      * specialize (IH (Mutex.mk true rest) 1 eq_refl Hd).
        destruct (MutexRun.run cs (Mutex.mk true rest)) as [m2 es].
        unfold Observe.holders in *; cbn in *; exact IH.
Qed.

(** X4: mutual exclusion.  When every [release()] on a mutex comes from a
    caller that was admitted and has not released yet, at most one caller
    holds the mutex at any time, and [isLocked()] tells whether one does. *)
Theorem mutex_mutual_exclusion (W : Type) (cs : list (call W)) :
  MutexDiscipline.disciplined cs (@Mutex.new W) 0 = true ->
  Observe.holders (snd (MutexRun.run cs (@Mutex.new W))) 0
  = (if Mutex.isLocked (fst (MutexRun.run cs (@Mutex.new W))) then 1 else 0)
  /\ 0 <= Observe.holders (snd (MutexRun.run cs (@Mutex.new W))) 0 <= 1.
Proof.
  intros Hd.
  pose proof (@mutex_disciplined_holders W cs Mutex.new 0 eq_refl Hd) as H.
  unfold Mutex.isLocked; rewrite H.
  split; [reflexivity|].
  destruct (Mutex.locked _); lia.
Qed.

Lemma mutex_mutual_exclusion_witness :
  Observe.holders
    (snd (MutexRun.run [Acquire 1%nat; Acquire 2%nat; Acquire 3%nat; Release; Release]
            (@Mutex.new nat))) 0 = 1.
Proof.
  pose proof (@mutex_mutual_exclusion nat
                [Acquire 1%nat; Acquire 2%nat; Acquire 3%nat; Release; Release] eq_refl)
    as [H _].
  rewrite H; reflexivity.
Defined.

(** In a disciplined run on a semaphore the free permits and the admitted
    callers always add up to the same number. *)
Lemma semaphore_disciplined_holders (W : Type) (cs : list (call W))
      (s : Semaphore.t W) (h : Z) :
  SemaphoreRun.disciplined cs s h = true ->
  Semaphore.permits (fst (SemaphoreRun.run cs s))
  + Observe.holders (snd (SemaphoreRun.run cs s)) h
  = Semaphore.permits s + h.
Proof.
  revert s h; induction cs as [|c cs IH]; intros s h Hd.
  - reflexivity.
  - destruct s as [p q].
    cbn [SemaphoreRun.disciplined SemaphoreRun.run] in *.
    destruct c as [w|]; cbn [SemaphoreRun.step] in *.
    + unfold Semaphore.acquire in *; cbn [Semaphore.permits Semaphore.waitQueue] in *.
      destruct (0 <? p).
      * specialize (IH (Semaphore.mk (p - 1) q) _ Hd).
        destruct (SemaphoreRun.run cs (Semaphore.mk (p - 1) q)) as [s2 es].
        cbn [fst snd Semaphore.permits] in *; rewrite holders_cons, IH; simpl; lia.
      * specialize (IH (Semaphore.mk p (q ++ [w])) _ Hd).
        destruct (SemaphoreRun.run cs (Semaphore.mk p (q ++ [w]))) as [s2 es].
        cbn [fst snd Semaphore.permits] in *; rewrite holders_cons, IH; simpl; lia.
    + destruct q as [|w rest]; cbn in Hd |- *;
        apply andb_true_iff in Hd; destruct Hd as [_ Hd].
      * specialize (IH (Semaphore.mk (p + 1) []) _ Hd).
        destruct (SemaphoreRun.run cs (Semaphore.mk (p + 1) [])) as [s2 es].
        unfold Observe.holders in *; cbn in *; lia.
      * specialize (IH (Semaphore.mk p rest) _ Hd).
        destruct (SemaphoreRun.run cs (Semaphore.mk p rest)) as [s2 es].
        unfold Observe.holders in *; cbn in *; lia.
Qed.

(** X5: admission control.  For a semaphore of capacity C >= 0, when every
    [release()] comes from a caller that was admitted and has not released
    yet, the free permits and the admitted callers add up to C, so never
    more than C callers are admitted at a time. *)
Theorem semaphore_admits_at_most_capacity (W : Type) (C : Z) (cs : list (call W)) :
  0 <= C ->
  SemaphoreRun.disciplined cs (@Semaphore.new W C) 0 = true ->
  Semaphore.availablePermits (fst (SemaphoreRun.run cs (@Semaphore.new W C)))
  + Observe.holders (snd (SemaphoreRun.run cs (@Semaphore.new W C))) 0 = C
  /\ Observe.holders (snd (SemaphoreRun.run cs (@Semaphore.new W C))) 0 <= C.
Proof.
  intros HC Hd.
  pose proof (@semaphore_disciplined_holders W cs (Semaphore.new C) 0 Hd) as Hsum.
  assert (Hwf : semaphore_wf (fst (SemaphoreRun.run cs (@Semaphore.new W C))))
    by (apply semaphore_run_wf; split; simpl; [exact HC|intros H; contradiction]).
  destruct Hwf as [Hp _].
  unfold Semaphore.availablePermits; simpl in Hsum.
  split; lia.
Qed.

Lemma semaphore_admits_at_most_capacity_witness :
  0 <= 2
  /\ Observe.holders
       (snd (SemaphoreRun.run
               [Acquire 1%nat; Acquire 2%nat; Acquire 3%nat; Release; Acquire 4%nat]
               (@Semaphore.new nat 2))) 0 <= 2.
Proof.
  split; [lia|].
  apply (@semaphore_admits_at_most_capacity nat 2
           [Acquire 1%nat; Acquire 2%nat; Acquire 3%nat; Release; Acquire 4%nat]);
    [lia|reflexivity].
Defined.

(** ** Uncontended use and empty capacity *)

(** X6: round trip.  Any number of uncontended uses, each an [acquire()]
    followed at once by its [release()], resolve every [acquire()] by the
    call itself, resume nobody, and leave a fresh mutex unlocked and a
    semaphore of capacity C >= 1 with all its permits. *)
Theorem uncontended_round_trip (W : Type) (C : Z) (ws : list W) :
  1 <= C ->
  MutexRun.run (Observe.pairs ws) (@Mutex.new W)
  = (Mutex.new, flat_map (fun _ => [Returned W Resolved; Resumed None]) ws)
  /\ SemaphoreRun.run (Observe.pairs ws) (@Semaphore.new W C)
     = (Semaphore.new C, flat_map (fun _ => [Returned W Resolved; Resumed None]) ws).
Proof.
  intros HC; split.
  - induction ws as [|w ws IH]; [reflexivity|].
    unfold Observe.pairs in *; cbn [flat_map app MutexRun.run MutexRun.step].
    unfold Mutex.new at 1; unfold Mutex.acquire; cbn.
    fold (@Mutex.new W); rewrite IH; reflexivity.
  - induction ws as [|w ws IH]; [reflexivity|].
    unfold Observe.pairs in *; cbn [flat_map app SemaphoreRun.run SemaphoreRun.step].
    unfold Semaphore.new at 1; unfold Semaphore.acquire; cbn [Semaphore.permits Semaphore.waitQueue].
    destruct (0 <? C) eqn:E; [|apply Z.ltb_ge in E; lia].
    cbn.
    replace (C - 1 + 1) with C by lia.
    fold (@Semaphore.new W C); rewrite IH; reflexivity.
Qed.

Lemma uncontended_round_trip_witness :
  1 <= 3
  /\ fst (SemaphoreRun.run (Observe.pairs [1; 2; 3; 4; 5]%nat) (@Semaphore.new nat 3))
     = Semaphore.new 3.
Proof.
  split; [lia|].
  rewrite (proj2 (@uncontended_round_trip nat 3 [1; 2; 3; 4; 5]%nat ltac:(lia))).
  reflexivity.
Defined.

(** X7: a semaphore built with a capacity C <= 0 admits nobody by itself:
    every [acquire()] is parked, in call order, and the count stays C. *)
Theorem semaphore_without_capacity (W : Type) (C : Z) (ws q : list W) :
  C <= 0 ->
  SemaphoreRun.run (map (@Acquire W) ws) (Semaphore.mk C q)
  = (Semaphore.mk C (q ++ ws), map (fun _ => Returned W Pending) ws).
Proof.
  intros HC; revert q; induction ws as [|w ws IH]; intros q.
  - simpl; rewrite app_nil_r; reflexivity.
  - cbn [map SemaphoreRun.run SemaphoreRun.step].
    unfold Semaphore.acquire; cbn [Semaphore.permits Semaphore.waitQueue].
    destruct (0 <? C) eqn:E; [apply Z.ltb_lt in E; lia|].
    rewrite IH, <- app_assoc; reflexivity.
Qed.

Lemma semaphore_without_capacity_witness :
  0 <= 0
  /\ SemaphoreRun.run (map (@Acquire nat) [1; 2]%nat) (Semaphore.new 0)
     = (Semaphore.mk 0 [1; 2]%nat, [Returned nat Pending; Returned nat Pending]).
Proof.
  split; [lia|].
  apply (@semaphore_without_capacity nat 0 [1; 2]%nat []); lia.
Defined.

(** ** The hooks *)

(** X8: one mount of [useMutex] on a free mutex.  Whether the component
    unmounts after the continuation of [acquireMutex] has run or before it,
    the mutex is released exactly once, by the cleanup in the first case and
    by the continuation in the second, and the hook ends unmounted with
    [acquired.current] false; both orders end in the same state.  With
    nobody queued the mutex is unlocked again. *)
Theorem useMutex_releases_once (W : Type) (resolve : W) (b : bool) (q : list W) :
  let hook := Hook.mk b false in
  let mutex := Mutex.mk false q in
  let mounted := Hook.useMutex_effect resolve hook mutex in
  let granted := Hook.useMutex_acquired (fst (fst mounted)) (snd (fst mounted)) in
  let late := Hook.useMutex_cleanup (fst (fst granted)) (snd (fst granted)) in
  let early := Hook.useMutex_cleanup (fst (fst mounted)) (snd (fst mounted)) in
  let stale := Hook.useMutex_acquired (fst (fst early)) (snd (fst early)) in
  snd mounted = Resolved
  /\ snd granted = None
  /\ late = (Hook.mk false false, fst (Mutex.release (Mutex.mk true q)),
             snd (Mutex.release (Mutex.mk true q)))
  /\ snd early = None
  /\ snd (fst early) = Mutex.mk true q
  /\ stale = late
  /\ (q = [] -> snd (fst late) = mutex).
Proof.
  cbv zeta; destruct q as [|w rest]; repeat split; intros; try reflexivity; discriminate.
Qed.

(** X9: a mount of [useMutex] on a held mutex that unmounts while parked.
    The cleanup releases nothing and cannot withdraw the request, which
    stays at the back of the queue; when a later [release()] resumes it, the
    continuation finds the component unmounted and passes the lock on at
    once. *)
Theorem useMutex_unmount_while_parked (W : Type) (resolve : W) (b : bool) (q : list W)
        (later : Mutex.t W) :
  let hook := Hook.mk b false in
  let mounted := Hook.useMutex_effect resolve hook (Mutex.mk true q) in
  let early := Hook.useMutex_cleanup (fst (fst mounted)) (snd (fst mounted)) in
  mounted = (Hook.mk true false, Mutex.mk true (q ++ [resolve]), Pending)
  /\ early = (Hook.mk false false, Mutex.mk true (q ++ [resolve]), None)
  /\ Hook.useMutex_acquired (fst (fst early)) later
     = (Hook.mk false false, fst (Mutex.release later), snd (Mutex.release later)).
Proof.
  cbv zeta; repeat split.
  unfold Hook.useMutex_acquired; simpl.
  destruct (Mutex.release later); reflexivity.
Qed.

(** X10: one mount of [useSemaphore] while a permit is free: in either order
    of unmount and continuation the permit is given back exactly once and
    the hook ends unmounted with [acquired.current] false; with nobody
    queued the count is back where it was. *)
Theorem useSemaphore_releases_once (W : Type) (resolve : W) (b : bool) (p : Z) (q : list W) :
  0 < p ->
  let hook := Hook.mk b false in
  let semaphore := Semaphore.mk p q in
  let mounted := Hook.useSemaphore_effect resolve hook semaphore in
  let granted := Hook.useSemaphore_acquired (fst (fst mounted)) (snd (fst mounted)) in
  let late := Hook.useSemaphore_cleanup (fst (fst granted)) (snd (fst granted)) in
  let early := Hook.useSemaphore_cleanup (fst (fst mounted)) (snd (fst mounted)) in
  let stale := Hook.useSemaphore_acquired (fst (fst early)) (snd (fst early)) in
  snd mounted = Resolved
  /\ snd granted = None
  /\ late = (Hook.mk false false, fst (Semaphore.release (Semaphore.mk (p - 1) q)),
             snd (Semaphore.release (Semaphore.mk (p - 1) q)))
  /\ snd early = None
  /\ stale = late
  /\ (q = [] -> snd (fst late) = semaphore).
Proof.
  intros Hp; cbv zeta.
  unfold Hook.useSemaphore_effect, Semaphore.acquire; cbn [Semaphore.permits Semaphore.waitQueue].
  apply Z.ltb_lt in Hp; rewrite Hp.
  destruct q as [|w rest]; repeat split; intros; try reflexivity; try discriminate.
  cbn; unfold Semaphore.release; cbn.
  f_equal; lia.
Qed.

Lemma useSemaphore_releases_once_witness :
  0 < 3
  /\ snd (fst (Hook.useSemaphore_cleanup
                 (fst (fst (Hook.useSemaphore_acquired
                              (fst (fst (Hook.useSemaphore_effect 7%nat Hook.new
                                           (@Semaphore.new nat 3))))
                              (snd (fst (Hook.useSemaphore_effect 7%nat Hook.new
                                           (@Semaphore.new nat 3)))))))
                 (snd (fst (Hook.useSemaphore_acquired
                              (fst (fst (Hook.useSemaphore_effect 7%nat Hook.new
                                           (@Semaphore.new nat 3))))
                              (snd (fst (Hook.useSemaphore_effect 7%nat Hook.new
                                           (@Semaphore.new nat 3)))))))))
     = Semaphore.new 3.
Proof.
  split; [lia|].
  pose proof (@useSemaphore_releases_once nat 7%nat false 3 [] ltac:(lia)) as H.
  cbv zeta in H; destruct H as [_ [_ [_ [_ [_ H]]]]].
  apply H; reflexivity.
Defined.

(** ** [withDataChangeMutex] and overlapping calls of the gate *)

Lemma strict_eq_null (d : JS.value) :
  JS.strict_eq d JS.VNull = true <-> d = JS.VNull.
Proof.
  split; [|intros ->; reflexivity].
  destruct d; simpl; intros H; try discriminate; reflexivity.
Qed.

(** [acquireIfChanged] before its [await], on a free lock, when it goes for
    the lock. *)
Lemma acquireIfChanged_enter_free (W : Type) (resolve : W) (data : JS.value)
      (compareFunction : option (JS.value -> JS.value -> bool))
      (q : list W) (d : JS.value) :
  d = JS.VNull
  \/ match compareFunction with Some f => f | None => defaultCompare end d data = false ->
  DataChangeMutex.acquireIfChanged_enter resolve data compareFunction
    (DataChangeMutex.mk (Mutex.mk false q) d)
  = (DataChangeMutex.mk (Mutex.mk true q) d, DataChangeMutex.Await Resolved).
Proof.
  intros Hgo; unfold DataChangeMutex.acquireIfChanged_enter.
  cbn [DataChangeMutex.lastData DataChangeMutex.super].
  destruct (JS.strict_eq d JS.VNull) eqn:Hnull; [reflexivity|].
  destruct Hgo as [->|Hc]; [discriminate|].
  rewrite Hc; reflexivity.
Qed.

(** X11: [withDataChangeMutex] when the stored baseline is judged equal to
    [data]: the call settles with the sentinel, [fn] is not run, and the
    object is left as it was, lock and queue included. *)
Theorem withDataChangeMutex_skips (W E R : Type) (resolve : W) (data : JS.value)
        (fn : DataScoped.M W E R)
        (compareFunction : option (JS.value -> JS.value -> bool))
        (mutex : DataChangeMutex.t W) :
  JS.strict_eq (DataChangeMutex.lastData mutex) JS.VNull = false ->
  match compareFunction with Some f => f | None => defaultCompare end
    (DataChangeMutex.lastData mutex) data = true ->
  DataScoped.withDataChangeMutex resolve data fn compareFunction mutex
  = (mutex, None, Scoped.Settled (Scoped.Normal DataScoped.Skip)).
Proof.
  intros Hbase Hcmp.
  unfold DataScoped.withDataChangeMutex, DataChangeMutex.acquireIfChanged_enter.
  rewrite Hbase, Hcmp; reflexivity.
Qed.

Lemma withDataChangeMutex_skips_witness :
  DataScoped.withDataChangeMutex 0%nat (JS.VString "a")
    (fun m => (m, @Scoped.Throw nat unit 1%nat)) None
    (DataChangeMutex.mk (@Mutex.new nat) (JS.VString "a"))
  = (DataChangeMutex.mk Mutex.new (JS.VString "a"), None,
     Scoped.Settled (Scoped.Normal DataScoped.Skip)).
Proof.
  apply (@withDataChangeMutex_skips nat nat unit); reflexivity.
Defined.

(** [withDataChangeMutex] on a free lock, when the gate lets it through. *)
Lemma withDataChangeMutex_free_run (W E R : Type) (resolve : W) (data : JS.value)
      (fn : DataScoped.M W E R)
      (compareFunction : option (JS.value -> JS.value -> bool))
      (q : list W) (d : JS.value)
      (mutex2 : DataChangeMutex.t W) (c : Scoped.completion E R) :
  d = JS.VNull
  \/ match compareFunction with Some f => f | None => defaultCompare end d data = false ->
  fn (DataChangeMutex.mk (Mutex.mk true q) data) = (mutex2, c) ->
  DataScoped.withDataChangeMutex resolve data fn compareFunction
    (DataChangeMutex.mk (Mutex.mk false q) d)
  = (DataChangeMutex.mk (fst (Mutex.release (DataChangeMutex.super mutex2)))
                        (DataChangeMutex.lastData mutex2),
     snd (Mutex.release (DataChangeMutex.super mutex2)),
     Scoped.Settled match c with
                    | Scoped.Normal v => Scoped.Normal (DataScoped.Value v)
                    | Scoped.Throw e => Scoped.Throw e
                    end).
Proof.
  intros Hgo Hfn.
  unfold DataScoped.withDataChangeMutex.
  rewrite acquireIfChanged_enter_free by exact Hgo.
  unfold DataScoped.withDataChangeMutex_resumed, DataChangeMutex.acquireIfChanged_resume.
  cbn [DataChangeMutex.super DataScoped.after_gate negb].
  unfold DataScoped.guarded; rewrite Hfn.
  unfold DataChangeMutex.releaseWithData.
  destruct (Mutex.release (DataChangeMutex.super mutex2)); reflexivity.
Qed.

(** X12: [withDataChangeMutex] on a free lock when there is no baseline or
    the baseline is judged different: [fn] runs on the object with the lock
    taken and [data] already stored as the baseline; the call settles the
    way [fn] completes, a thrown error included, after
    [releaseWithData()], which keeps the baseline.  When [fn] leaves the
    object alone and nobody is queued, the object ends unlocked with [data]
    as its baseline, also when [fn] threw. *)
Theorem withDataChangeMutex_proceeds (W E R : Type) (resolve : W) (data : JS.value)
        (fn : DataScoped.M W E R)
        (compareFunction : option (JS.value -> JS.value -> bool))
        (q : list W) (d : JS.value)
        (mutex2 : DataChangeMutex.t W) (c : Scoped.completion E R) :
  d = JS.VNull
  \/ match compareFunction with Some f => f | None => defaultCompare end d data = false ->
  fn (DataChangeMutex.mk (Mutex.mk true q) data) = (mutex2, c) ->
  DataScoped.withDataChangeMutex resolve data fn compareFunction
    (DataChangeMutex.mk (Mutex.mk false q) d)
  = (DataChangeMutex.mk (fst (Mutex.release (DataChangeMutex.super mutex2)))
                        (DataChangeMutex.lastData mutex2),
     snd (Mutex.release (DataChangeMutex.super mutex2)),
     Scoped.Settled match c with
                    | Scoped.Normal v => Scoped.Normal (DataScoped.Value v)
                    | Scoped.Throw e => Scoped.Throw e
                    end)
  /\ (q = [] -> mutex2 = DataChangeMutex.mk (Mutex.mk true []) data ->
      fst (fst (DataScoped.withDataChangeMutex resolve data fn compareFunction
                  (DataChangeMutex.mk (Mutex.mk false q) d)))
      = DataChangeMutex.mk Mutex.new data).
Proof.
  intros Hgo Hfn.
  pose proof (@withDataChangeMutex_free_run W E R resolve data fn compareFunction q d
                mutex2 c Hgo Hfn) as Hrun.
  split; [exact Hrun|].
  intros -> ->; rewrite Hrun; reflexivity.
Qed.

Lemma withDataChangeMutex_proceeds_witness :
  DataScoped.withDataChangeMutex 0%nat (JS.VString "a")
    (fun m => (m, @Scoped.Throw nat unit 1%nat)) None (@DataChangeMutex.new nat)
  = (DataChangeMutex.mk Mutex.new (JS.VString "a"), None,
     Scoped.Settled (Scoped.Throw 1%nat)).
Proof.
  refine (proj1 (@withDataChangeMutex_proceeds nat nat unit 0%nat (JS.VString "a")
                   (fun m => (m, Scoped.Throw 1%nat)) None [] JS.VNull
                   _ _ (or_introl eq_refl) eq_refl)).
Defined.

(** X13: work that failed is not retried.  After a [withDataChangeMutex]
    with a [data] other than [null] that ran [fn] on an uncontended object,
    however [fn] completed, a second call whose [data'] is judged equal to
    [data] is skipped: it settles with the sentinel without running its
    function, although the first function may have thrown. *)
Theorem withDataChangeMutex_no_retry (W E R : Type) (r1 r2 : W) (data data' : JS.value)
        (fn fn' : DataScoped.M W E R)
        (cmp cmp' : option (JS.value -> JS.value -> bool))
        (d : JS.value) (c : Scoped.completion E R) :
  d = JS.VNull \/ match cmp with Some f => f | None => defaultCompare end d data = false ->
  fn (DataChangeMutex.mk (Mutex.mk true []) data)
  = (DataChangeMutex.mk (Mutex.mk true []) data, c) ->
  JS.strict_eq data JS.VNull = false ->
  match cmp' with Some f => f | None => defaultCompare end data data' = true ->
  DataScoped.withDataChangeMutex r2 data' fn' cmp'
    (fst (fst (DataScoped.withDataChangeMutex r1 data fn cmp
                 (DataChangeMutex.mk Mutex.new d))))
  = (DataChangeMutex.mk Mutex.new data, None,
     Scoped.Settled (Scoped.Normal DataScoped.Skip)).
Proof.
  intros Hgo Hfn Hdata Hcmp.
  unfold Mutex.new at 1.
  rewrite (@withDataChangeMutex_free_run W E R r1 data fn cmp [] d _ c Hgo Hfn).
  cbn [fst snd DataChangeMutex.super DataChangeMutex.lastData].
  change (fst (Mutex.release (Mutex.mk true (@nil W)))) with (@Mutex.new W).
  unfold DataScoped.withDataChangeMutex, DataChangeMutex.acquireIfChanged_enter.
  cbn [DataChangeMutex.lastData].
  rewrite Hdata, Hcmp; reflexivity.
Qed.

Lemma withDataChangeMutex_no_retry_witness :
  DataScoped.withDataChangeMutex 1%nat (JS.VObject 2 [("id"%string, JS.VNumber (JS.Num 7))])
    (fun m => (m, @Scoped.Normal nat unit tt)) None
    (fst (fst (DataScoped.withDataChangeMutex 0%nat
                 (JS.VObject 1 [("id"%string, JS.VNumber (JS.Num 7))])
                 (fun m => (m, @Scoped.Throw nat unit 1%nat)) None
                 (@DataChangeMutex.new nat))))
  = (DataChangeMutex.mk Mutex.new (JS.VObject 1 [("id"%string, JS.VNumber (JS.Num 7))]),
     None, Scoped.Settled (Scoped.Normal DataScoped.Skip)).
Proof.
  apply (@withDataChangeMutex_no_retry nat nat unit 0%nat 1%nat
           (JS.VObject 1 [("id"%string, JS.VNumber (JS.Num 7))])
           (JS.VObject 2 [("id"%string, JS.VNumber (JS.Num 7))])
           (fun m => (m, Scoped.Throw 1%nat)) (fun m => (m, Scoped.Normal tt))
           None None JS.VNull (Scoped.Throw 1%nat));
    [left; reflexivity|reflexivity|reflexivity|reflexivity].
Defined.



(** X15: overlapping calls are not merged.  When a call of
    [acquireIfChanged] has gone for the lock and has not yet run its
    continuation, the baseline is still the old one: a second call with the
    same [data] and comparison goes for the lock too and is parked at the
    back of the queue. *)
Theorem acquireIfChanged_overlapping_calls (W : Type) (r1 r2 : W) (data : JS.value)
        (compareFunction : option (JS.value -> JS.value -> bool))
        (this : DataChangeMutex.t W) (p1 : promise) :
  snd (DataChangeMutex.acquireIfChanged_enter r1 data compareFunction this)
  = DataChangeMutex.Await p1 ->
  DataChangeMutex.acquireIfChanged_enter r2 data compareFunction
    (fst (DataChangeMutex.acquireIfChanged_enter r1 data compareFunction this))
  = (DataChangeMutex.mk
       (Mutex.mk true
          (Mutex.waitQueue
             (DataChangeMutex.super
                (fst (DataChangeMutex.acquireIfChanged_enter r1 data compareFunction this)))
           ++ [r2]))
       (DataChangeMutex.lastData this),
     DataChangeMutex.Await Pending).
Proof.
  destruct this as [[b q] d].
  unfold DataChangeMutex.acquireIfChanged_enter.
  cbn [DataChangeMutex.lastData DataChangeMutex.super].
  destruct (JS.strict_eq d JS.VNull) eqn:Hnull.
  - intros _; unfold Mutex.acquire; cbn [Mutex.locked Mutex.waitQueue].
    destruct b; cbn; rewrite Hnull; reflexivity.
  - destruct (negb _) eqn:Hchanged.
    + intros _; unfold Mutex.acquire; cbn [Mutex.locked Mutex.waitQueue].
      destruct b; cbn; rewrite Hnull, Hchanged; reflexivity.
    + cbn; discriminate.
Qed.

Lemma acquireIfChanged_overlapping_calls_witness :
  DataChangeMutex.acquireIfChanged_enter 2%nat (JS.VString "a") None
    (fst (DataChangeMutex.acquireIfChanged_enter 1%nat (JS.VString "a") None
            (@DataChangeMutex.new nat)))
  = (DataChangeMutex.mk (Mutex.mk true [2%nat]) JS.VNull, DataChangeMutex.Await Pending).
Proof.
  apply (@acquireIfChanged_overlapping_calls nat 1%nat 2%nat (JS.VString "a") None
           DataChangeMutex.new Resolved).
  reflexivity.
Defined.

(** ** More on [defaultCompare] *)

Lemma text_strict_eq_sym (x y : option string) :
  JS.text_strict_eq x y = JS.text_strict_eq y x.
Proof. destruct x, y; simpl; try reflexivity; apply String.eqb_sym. Qed.

Lemma number_strict_eq_sym (x y : JS.number) :
  JS.number_strict_eq x y = JS.number_strict_eq y x.
Proof. destruct x, y; simpl; try reflexivity; apply Z.eqb_sym. Qed.

(** X16: on these values, which carry no [toJSON] method, [defaultCompare]
    is symmetric: swapping the baseline and the new value never changes the
    verdict. *)
Theorem defaultCompare_symmetric (a b : JS.value) :
  defaultCompare a b = defaultCompare b a.
Proof.
  destruct a as [| |x|x|x|r|r xs|r ps], b as [| |y|y|y|r' |r' ys|r' qs];
    try reflexivity; unfold defaultCompare;
    cbn [JS.strict_eq JS.typeof String.eqb Ascii.eqb Bool.eqb negb andb];
    cbn -[JS.JSON_stringify String.concat JS.number_strict_eq];
    first [ apply number_strict_eq_sym
          | apply String.eqb_sym
          | apply Nat.eqb_sym
          | apply text_strict_eq_sym
          | destruct x, y; reflexivity ].
Qed.

Lemma text_strict_eq_refl (x : option string) : JS.text_strict_eq x x = true.
Proof. destruct x; simpl; [apply String.eqb_refl|reflexivity]. Qed.

(** X17: [defaultCompare] judges a value equal to itself, except for [null]
    and [NaN]: with one of those as data the gate never sees "unchanged". *)
Theorem defaultCompare_reflexive_except (a : JS.value) :
  defaultCompare a a = false <-> a = JS.VNull \/ a = JS.VNumber JS.NaN.
Proof.
  split.
  - destruct a as [| |x|[|z]|x|r|r xs|r ps]; intros H;
      try (left; reflexivity); try (right; reflexivity);
      exfalso; revert H; unfold defaultCompare;
      cbn [JS.strict_eq JS.typeof String.eqb Ascii.eqb Bool.eqb negb andb];
      cbn -[JS.JSON_stringify String.concat JS.number_strict_eq].
    + discriminate.
    + rewrite Bool.eqb_reflx; discriminate.
    + simpl; rewrite Z.eqb_refl; discriminate.
    + rewrite String.eqb_refl; discriminate.
    + rewrite Nat.eqb_refl; discriminate.
    + rewrite text_strict_eq_refl; discriminate.
    + rewrite text_strict_eq_refl; discriminate.
  - intros [->| ->]; reflexivity.
Qed.

(** ** Independence of the named locks *)

Lemma mutexKey_eqb_neq (k k' : Scoped.mutexKey) :
  k <> k' -> Scoped.mutexKey_eqb k k' = false.
Proof. destruct k, k'; intros H; try reflexivity; exfalso; apply H; reflexivity. Qed.

Lemma semaphoreKey_eqb_neq (k k' : Scoped.semaphoreKey) :
  k <> k' -> Scoped.semaphoreKey_eqb k k' = false.
Proof. destruct k, k'; intros H; try reflexivity; exfalso; apply H; reflexivity. Qed.

(** X18: the scoped helpers touch the primitive they name and nothing
    else.  With an [fn] that leaves the registries alone, [withMutex] on one
    name leaves every mutex of another name and every semaphore as they
    were, and [withSemaphore] on one name leaves every semaphore of another
    name and every mutex as they were, whether the call settles or is
    parked. *)
Theorem scoped_helpers_frame (W E T : Type) (resolve : W) (fn : Scoped.M W E T)
        (h : Scoped.heap W) :
  (forall h' : Scoped.heap W, fst (fn h') = h') ->
  (forall key key' : Scoped.mutexKey, key <> key' ->
     Scoped.mutexes (fst (Scoped.withMutex resolve key fn h)) key' = Scoped.mutexes h key')
  /\ (forall key : Scoped.mutexKey,
        Scoped.semaphores (fst (Scoped.withMutex resolve key fn h)) = Scoped.semaphores h)
  /\ (forall key key' : Scoped.semaphoreKey, key <> key' ->
        Scoped.semaphores (fst (Scoped.withSemaphore resolve key fn h)) key'
        = Scoped.semaphores h key')
  /\ (forall key : Scoped.semaphoreKey,
        Scoped.mutexes (fst (Scoped.withSemaphore resolve key fn h)) = Scoped.mutexes h).
Proof.
  intros Hpure.
  assert (Hm : forall key, Scoped.withMutex resolve key fn h
             = match snd (Mutex.acquire resolve (Scoped.mutexes h key)) with
               | Resolved =>
                   (fst (@Scoped.release_mutex W E key
                           (Scoped.set_mutex key
                              (fst (Mutex.acquire resolve (Scoped.mutexes h key))) h)),
                    Scoped.Settled
                      (snd (fn (Scoped.set_mutex key
                                  (fst (Mutex.acquire resolve (Scoped.mutexes h key))) h))))
               | Pending =>
                   (Scoped.set_mutex key
                      (fst (Mutex.acquire resolve (Scoped.mutexes h key))) h,
                    Scoped.Suspended)
               end).
  { intros key; unfold Scoped.withMutex, Scoped.withMutex_resumed.
    destruct (Mutex.acquire resolve (Scoped.mutexes h key)) as [m' [|]]; cbn [fst snd];
      [|reflexivity].
    rewrite try_finally_release_mutex, Hpure; reflexivity. }
  assert (Hs : forall key, Scoped.withSemaphore resolve key fn h
             = match snd (Semaphore.acquire resolve (Scoped.semaphores h key)) with
               | Resolved =>
                   (fst (@Scoped.release_semaphore W E key
                           (Scoped.set_semaphore key
                              (fst (Semaphore.acquire resolve (Scoped.semaphores h key))) h)),
                    Scoped.Settled
                      (snd (fn (Scoped.set_semaphore key
                                  (fst (Semaphore.acquire resolve (Scoped.semaphores h key)))
                                  h))))
               | Pending =>
                   (Scoped.set_semaphore key
                      (fst (Semaphore.acquire resolve (Scoped.semaphores h key))) h,
                    Scoped.Suspended)
               end).
  { intros key; unfold Scoped.withSemaphore, Scoped.withSemaphore_resumed.
    destruct (Semaphore.acquire resolve (Scoped.semaphores h key)) as [s' [|]]; cbn [fst snd];
      [|reflexivity].
    rewrite try_finally_release_semaphore, Hpure; reflexivity. }
  split; [|split; [|split]].
  - intros key key' Hne; rewrite Hm.
    destruct (snd (Mutex.acquire resolve (Scoped.mutexes h key))); cbn [fst].
    + unfold Scoped.release_mutex.
      destruct (Mutex.release _) as [m r]; cbn [fst].
      rewrite mutexes_wake; cbn.
      rewrite !mutexKey_eqb_neq by exact Hne; reflexivity.
    + cbn; rewrite mutexKey_eqb_neq by exact Hne; reflexivity.
  - intros key; rewrite Hm.
    destruct (snd (Mutex.acquire resolve (Scoped.mutexes h key))); cbn [fst].
    + unfold Scoped.release_mutex.
      destruct (Mutex.release _) as [m r]; cbn [fst].
      rewrite semaphores_wake; reflexivity.
    + reflexivity.
  - intros key key' Hne; rewrite Hs.
    destruct (snd (Semaphore.acquire resolve (Scoped.semaphores h key))); cbn [fst].
    + unfold Scoped.release_semaphore.
      destruct (Semaphore.release _) as [s r]; cbn [fst].
      rewrite semaphores_wake; cbn.
      rewrite !semaphoreKey_eqb_neq by exact Hne; reflexivity.
    + cbn; rewrite semaphoreKey_eqb_neq by exact Hne; reflexivity.
  - intros key; rewrite Hs.
    destruct (snd (Semaphore.acquire resolve (Scoped.semaphores h key))); cbn [fst].
    + unfold Scoped.release_semaphore.
      destruct (Semaphore.release _) as [s r]; cbn [fst].
      rewrite mutexes_wake; reflexivity.
    + reflexivity.
Qed.

Lemma scoped_helpers_frame_witness :
  Scoped.mutexes
    (fst (Scoped.withMutex 0%nat Scoped.contacts
            (fun h => (h, @Scoped.Normal nat nat 1%nat)) Scoped.init)) Scoped.messages
  = Mutex.new
  /\ Scoped.semaphores
       (fst (Scoped.withMutex 0%nat Scoped.contacts
               (fun h => (h, @Scoped.Normal nat nat 1%nat)) Scoped.init)) Scoped.sms
     = Semaphore.new 3.
Proof.
  destruct (@scoped_helpers_frame nat nat nat 0%nat
              (fun h => (h, Scoped.Normal 1%nat)) Scoped.init (fun h' => eq_refl))
    as [Hm [Hs _]].
  split.
  - rewrite (Hm Scoped.contacts Scoped.messages) by discriminate; reflexivity.
  - rewrite (Hs Scoped.contacts); reflexivity.
Defined.

(** ** Hand-over in the histories of a DataChangeMutex *)

Lemma mutex_acquire_wf (W : Type) (w : W) (m : Mutex.t W) :
  mutex_wf m -> mutex_wf (fst (Mutex.acquire w m)).
Proof.
  intros H; pose proof (@mutex_step_wf W (Acquire w) m H) as H1.
  simpl in H1; destruct (Mutex.acquire w m); exact H1.
Qed.

Lemma mutex_release_wf (W : Type) (m : Mutex.t W) :
  mutex_wf m -> mutex_wf (fst (Mutex.release m)).
Proof.
  intros H; pose proof (@mutex_step_wf W Release m H) as H1.
  simpl in H1; destruct (Mutex.release m); exact H1.
Qed.

Lemma dataChange_step_wf (k : DataChangeRun.step_kind) (s : DataChangeRun.state) :
  mutex_wf (DataChangeMutex.super (DataChangeRun.object s)) ->
  mutex_wf (DataChangeMutex.super (DataChangeRun.object (DataChangeRun.step k s))).
Proof.
  destruct s as [[m d] rdy tr]; cbn [DataChangeRun.object DataChangeMutex.super].
  intros Hwf; destruct k as [| |newData cmp|clearData|i]; cbn [DataChangeRun.step];
    cbn [DataChangeRun.object DataChangeRun.ready DataChangeRun.trace
         DataChangeMutex.super DataChangeMutex.lastData].
  - pose proof (mutex_acquire_wf DataChangeRun.AfterAcquire Hwf) as H1.
    destruct (Mutex.acquire _ m); exact H1.
  - pose proof (mutex_release_wf Hwf) as H1.
    destruct (Mutex.release m); exact H1.
  - unfold DataChangeMutex.acquireIfChanged_enter.
    cbn [DataChangeMutex.super DataChangeMutex.lastData].
    pose proof (mutex_acquire_wf (DataChangeRun.AfterAcquireIfChanged newData) Hwf) as H1.
    destruct (JS.strict_eq d JS.VNull); [|destruct (negb _)];
      try (destruct (Mutex.acquire _ m) as [m' [|]]; exact H1).
    exact Hwf.
  - unfold DataChangeMutex.releaseWithData.
    pose proof (mutex_release_wf Hwf) as H1.
    destruct clearData as [[|]|]; cbn [DataChangeMutex.super DataChangeMutex.lastData];
      destruct (Mutex.release m); exact H1.
  - destruct (nth_error rdy i) as [[|newData]|]; exact Hwf.
Qed.

Lemma dataChange_run_wf (ks : list DataChangeRun.step_kind) (s : DataChangeRun.state) :
  mutex_wf (DataChangeMutex.super (DataChangeRun.object s)) ->
  mutex_wf (DataChangeMutex.super (DataChangeRun.object (DataChangeRun.run ks s))).
Proof.
  revert s; induction ks as [|k ks IH]; intros s Hwf; simpl.
  - exact Hwf.
  - apply IH, dataChange_step_wf, Hwf.
Qed.

(** X19: along every history of a DataChangeMutex, whatever mix of the
    inherited and the own calls, [releaseWithData] with calls parked hands
    the lock to the earliest of them without ever unlocking, and with
    nobody parked it unlocks; the baseline is cleared or kept as asked. *)
Theorem releaseWithData_hands_over (ks : list DataChangeRun.step_kind)
        (clearData : option bool) :
  match Mutex.waitQueue
          (DataChangeMutex.super
             (DataChangeRun.object (DataChangeRun.run ks DataChangeRun.init))) with
  | k :: rest =>
      DataChangeMutex.releaseWithData clearData
        (DataChangeRun.object (DataChangeRun.run ks DataChangeRun.init))
      = (DataChangeMutex.mk (Mutex.mk true rest)
           (match clearData with
            | Some true => JS.VNull
            | _ => DataChangeMutex.lastData
                     (DataChangeRun.object (DataChangeRun.run ks DataChangeRun.init))
            end),
         Some k)
  | [] =>
      DataChangeMutex.releaseWithData clearData
        (DataChangeRun.object (DataChangeRun.run ks DataChangeRun.init))
      = (DataChangeMutex.mk Mutex.new
           (match clearData with
            | Some true => JS.VNull
            | _ => DataChangeMutex.lastData
                     (DataChangeRun.object (DataChangeRun.run ks DataChangeRun.init))
            end),
         None)
  end.
Proof.
  assert (Hwf : mutex_wf (DataChangeMutex.super
                            (DataChangeRun.object (DataChangeRun.run ks DataChangeRun.init)))).
  { apply dataChange_run_wf; intros H; contradiction. }
  destruct (DataChangeRun.object (DataChangeRun.run ks DataChangeRun.init)) as [[b q] d].
  unfold mutex_wf in Hwf; cbn [DataChangeMutex.super DataChangeMutex.lastData
                                 Mutex.waitQueue Mutex.locked] in *.
  destruct q as [|k rest].
  - destruct clearData as [[|]|]; reflexivity.
  - assert (b = true) by (apply Hwf; discriminate); subst b.
    destruct clearData as [[|]|]; reflexivity.
Qed.

(** ** No call of the gate is lost *)

Lemma gate_calls_app (l1 l2 : list DataChangeRun.continuation) :
  DataChangeCount.gate_calls (l1 ++ l2)
  = (DataChangeCount.gate_calls l1 + DataChangeCount.gate_calls l2)%nat.
Proof.
  induction l1 as [|[|d] l1 IH]; simpl; [reflexivity|exact IH|rewrite IH; reflexivity].
Qed.

Lemma gate_calls_remove_nth (i : nat) (l : list DataChangeRun.continuation)
      (k : DataChangeRun.continuation) :
  nth_error l i = Some k ->
  DataChangeCount.gate_calls l
  = (DataChangeCount.gate_calls [k]
     + DataChangeCount.gate_calls (DataChangeRun.remove_nth i l))%nat.
Proof.
  revert i; induction l as [|x l IH]; intros [|i] H; simpl in H; try discriminate.
  - injection H as ->; destruct k; reflexivity.
  - specialize (IH i H); destruct x, k; simpl in *; lia.
Qed.

Lemma dataChange_step_accounts (k : DataChangeRun.step_kind) (s : DataChangeRun.state) :
  (DataChangeCount.called [k] + DataChangeCount.returned (DataChangeRun.trace s)
   + DataChangeCount.in_flight s
   = DataChangeCount.returned (DataChangeRun.trace (DataChangeRun.step k s))
     + DataChangeCount.in_flight (DataChangeRun.step k s))%nat.
Proof.
  destruct s as [[[b q] d] rdy tr]; unfold DataChangeCount.in_flight.
  destruct k as [| |newData cmp|clearData|i]; cbn [DataChangeRun.step DataChangeCount.called];
    cbn [DataChangeRun.object DataChangeRun.ready DataChangeRun.trace
         DataChangeMutex.super DataChangeMutex.lastData].
  - unfold Mutex.acquire; cbn [Mutex.locked Mutex.waitQueue].
    destruct b; cbn [negb DataChangeRun.object DataChangeRun.ready DataChangeRun.trace
                     DataChangeMutex.super Mutex.waitQueue];
      rewrite gate_calls_app; simpl; lia.
  - destruct q as [|w rest]; cbn.
    + lia.
    + rewrite gate_calls_app; destruct w; simpl; lia.
  - unfold DataChangeMutex.acquireIfChanged_enter, Mutex.acquire.
    cbn [DataChangeMutex.super DataChangeMutex.lastData Mutex.locked Mutex.waitQueue].
    destruct (JS.strict_eq d JS.VNull); [|destruct (negb (_ d newData))];
      try (destruct b; cbn [negb DataChangeRun.object DataChangeRun.ready DataChangeRun.trace
                            DataChangeMutex.super Mutex.waitQueue];
           rewrite gate_calls_app; simpl; lia).
    cbn; lia.
  - unfold DataChangeMutex.releaseWithData.
    destruct clearData as [[|]|]; cbn [DataChangeMutex.super DataChangeMutex.lastData];
      destruct q as [|w rest]; cbn; try lia;
      rewrite gate_calls_app; destruct w; simpl; lia.
  - destruct (nth_error rdy i) as [k|] eqn:Hnth.
    + pose proof (gate_calls_remove_nth i rdy Hnth) as Hcount.
      destruct k as [|newData]; cbn in *; lia.
    + cbn; lia.
Qed.

Lemma called_cons (k : DataChangeRun.step_kind) (ks : list DataChangeRun.step_kind) :
  DataChangeCount.called (k :: ks)
  = (DataChangeCount.called [k] + DataChangeCount.called ks)%nat.
Proof. destruct k; reflexivity. Qed.

Lemma dataChange_run_accounts (ks : list DataChangeRun.step_kind) (s : DataChangeRun.state) :
  (DataChangeCount.called ks + DataChangeCount.returned (DataChangeRun.trace s)
   + DataChangeCount.in_flight s
   = DataChangeCount.returned (DataChangeRun.trace (DataChangeRun.run ks s))
     + DataChangeCount.in_flight (DataChangeRun.run ks s))%nat.
Proof.
  revert s; induction ks as [|k ks IH]; intros s.
  - simpl; lia.
  - rewrite called_cons; cbn [DataChangeRun.run fold_left].
    specialize (IH (DataChangeRun.step k s)); unfold DataChangeRun.run in IH.
    pose proof (dataChange_step_accounts k s); lia.
Qed.

(** X20: no call of the gate is lost or answered twice.  Along every
    history of a DataChangeMutex, each call of [acquireIfChanged] made so
    far has either returned, exactly once, or is still in flight: parked in
    the wait queue, or resolved and waiting for its continuation to run. *)
Theorem every_gate_call_is_accounted_for (ks : list DataChangeRun.step_kind) :
  DataChangeCount.called ks
  = (DataChangeCount.returned (DataChangeRun.trace (DataChangeRun.run ks DataChangeRun.init))
     + DataChangeCount.in_flight (DataChangeRun.run ks DataChangeRun.init))%nat.
Proof.
  pose proof (dataChange_run_accounts ks DataChangeRun.init) as H.
  cbn in H; lia.
Qed.

(** ** Copies of the same data *)

(** [JSON.stringify] does not look at the identity of a cell. *)
Lemma JSON_stringify_erase (v : JS.value) :
  JS.JSON_stringify (Content.erase v) = JS.JSON_stringify v.
Proof.
  revert v; fix IH 1; intros v.
  destruct v as [| |x|x|x|r|r xs|r ps]; try reflexivity.
  - cbn [Content.erase JS.JSON_stringify].
    assert (Hxs : map (fun x => match JS.JSON_stringify x with
                                | Some text => text
                                | None => "null"%string
                                end) (map Content.erase xs)
                  = map (fun x => match JS.JSON_stringify x with
                                  | Some text => text
                                  | None => "null"%string
                                  end) xs).
    { induction xs as [|x xs IHxs]; [reflexivity|].
      cbn [map]; rewrite (IH x), IHxs; reflexivity. }
    rewrite Hxs; reflexivity.
  - cbn [Content.erase JS.JSON_stringify].
    assert (Hps : flat_map (fun kv => match JS.JSON_stringify (snd kv) with
                                      | Some text =>
                                          [(JS.QuoteJSONString (fst kv) ++ ":" ++ text)%string]
                                      | None => []
                                      end)
                    (map (fun kv => (fst kv, Content.erase (snd kv))) ps)
                  = flat_map (fun kv => match JS.JSON_stringify (snd kv) with
                                        | Some text =>
                                            [(JS.QuoteJSONString (fst kv) ++ ":" ++ text)%string]
                                        | None => []
                                        end) ps).
    { induction ps as [|[k x] ps IHps]; [reflexivity|].
      cbn [map flat_map fst snd]; rewrite (IH x), IHps; reflexivity. }
    rewrite Hps; reflexivity.
Qed.

(** X21: a copy counts as unchanged.  Two objects or arrays with the same
    content, at whatever depth their cells differ in identity, are judged
    equal by [defaultCompare], so a refetch that rebuilds the same data does
    not pass the gate. *)
Theorem defaultCompare_ignores_identity (a b : JS.value) :
  Content.same a b ->
  JS.typeof a = "object"%string ->
  a <> JS.VNull ->
  defaultCompare a b = true.
Proof.
  unfold Content.same; intros Hsame Hty Hnull.
  assert (Htext : JS.JSON_stringify a = JS.JSON_stringify b)
    by (rewrite <- (JSON_stringify_erase a), <- (JSON_stringify_erase b), Hsame; reflexivity).
  unfold defaultCompare.
  destruct a as [| |x|x|x|r|r xs|r ps]; try discriminate; try contradiction;
    destruct b as [| |y|y|y|r' |r' ys|r' qs]; try discriminate;
    cbn [JS.strict_eq JS.typeof String.eqb Ascii.eqb negb andb];
    cbn -[JS.JSON_stringify String.concat];
    rewrite Htext; apply text_strict_eq_refl.
Qed.

Lemma defaultCompare_ignores_identity_witness :
  defaultCompare
    (JS.VObject 1 [("rows"%string, JS.VArray 2 [JS.VObject 3 [("id"%string, JS.VNumber (JS.Num 7))]])])
    (JS.VObject 4 [("rows"%string, JS.VArray 5 [JS.VObject 6 [("id"%string, JS.VNumber (JS.Num 7))]])])
  = true.
Proof.
  apply defaultCompare_ignores_identity; [reflexivity|reflexivity|discriminate].
Defined.

(** ** A scoped helper on a busy primitive *)

(** X22: while the named mutex is held, [withMutex] parks the call at the
    back of the queue and does not run [fn]; while the named semaphore has
    no permit, [withSemaphore] does the same.  Nothing else changes. *)
Theorem scoped_helper_parks_when_busy (W E T : Type) (resolve : W) (fn : Scoped.M W E T)
        (h : Scoped.heap W) :
  (forall key : Scoped.mutexKey,
      Mutex.isLocked (Scoped.mutexes h key) = true ->
      Scoped.withMutex resolve key fn h
      = (Scoped.set_mutex key
           (Mutex.mk true (Mutex.waitQueue (Scoped.mutexes h key) ++ [resolve])) h,
         Scoped.Suspended))
  /\ (forall key : Scoped.semaphoreKey,
      Semaphore.availablePermits (Scoped.semaphores h key) <= 0 ->
      Scoped.withSemaphore resolve key fn h
      = (Scoped.set_semaphore key
           (Semaphore.mk (Semaphore.permits (Scoped.semaphores h key))
              (Semaphore.waitQueue (Scoped.semaphores h key) ++ [resolve])) h,
         Scoped.Suspended)).
Proof.
  split; intros key Hbusy.
  - unfold Scoped.withMutex, Mutex.acquire.
    unfold Mutex.isLocked in Hbusy; rewrite Hbusy; reflexivity.
  - unfold Scoped.withSemaphore, Semaphore.acquire.
    unfold Semaphore.availablePermits in Hbusy.
    destruct (0 <? Semaphore.permits (Scoped.semaphores h key)) eqn:Hlt;
      [apply Z.ltb_lt in Hlt; lia|reflexivity].
Qed.

Lemma scoped_helper_parks_when_busy_witness :
  snd (Scoped.withMutex 2%nat Scoped.contacts
         (fun h => (h, @Scoped.Normal nat nat 1%nat))
         (Scoped.set_mutex Scoped.contacts (Mutex.mk true [1%nat]) Scoped.init))
  = Scoped.Suspended.
Proof.
  rewrite (proj1 (@scoped_helper_parks_when_busy nat nat nat 2%nat
                    (fun h => (h, Scoped.Normal 1%nat))
                    (Scoped.set_mutex Scoped.contacts (Mutex.mk true [1%nat]) Scoped.init))
             Scoped.contacts eq_refl).
  reflexivity.
Defined.
